(** * KairoCore [crypto_utils.js]: the dynamic-IV codec

    A shallow embedding of [encryptWithDynamicIV] and
    [decryptWithDynamicIV] (src/utils/crypto_utils.js) together with the
    parts of the JavaScript platform and of crypto-js the two functions
    call: WordArrays, Base64, UTF-8, JSON, AES-CBC with PKCS#7 padding.

    Conventions.
    - A JavaScript string is the list of its UTF-16 code units ([N]).
    - A crypto-js [WordArray] keeps [words] as the big-endian byte image of
      its 32-bit words (four bytes per word) next to [sigBytes].
    - [Date.now()] and the bytes drawn by [WordArray.random] are explicit
      inputs of the embedded functions.
    - What the platform fixes but this development does not compute
      (floating-point numbers, non-standard AES key sizes, the edition of
      [JSON.stringify]) is collected in the record [Platform]. *)

From Stdlib Require Import List ZArith NArith Lia Bool Btauto.
From Stdlib Require Import Strings.Byte.
From Stdlib Require Strings.String.
From Stdlib Require DecimalPos DecimalN DecimalZ DecimalFacts.
Import ListNotations.

Set Implicit Arguments.

(* ================================================================== *)
(** ** Bytes *)

Module Bytes.

Definition bits := (bool * (bool * (bool * (bool * (bool * (bool * (bool * bool)))))))%type.

Definition bits_xor (a b : bits) : bits :=
  let '(a0, (a1, (a2, (a3, (a4, (a5, (a6, a7))))))) := a in
  let '(b0, (b1, (b2, (b3, (b4, (b5, (b6, b7))))))) := b in
  (xorb a0 b0, (xorb a1 b1, (xorb a2 b2, (xorb a3 b3,
  (xorb a4 b4, (xorb a5 b5, (xorb a6 b6, xorb a7 b7))))))).

(** Bitwise exclusive or of two bytes (JavaScript [^] on values below 256). *)
Definition bxor (a b : byte) : byte :=
  Byte.of_bits (bits_xor (Byte.to_bits a) (Byte.to_bits b)).

(** The byte of a number, reduced modulo 256 (JavaScript [& 0xff]). *)
Definition byte_of_N (n : N) : byte :=
  match Byte.of_N (n mod 256) with
  | Some b => b
  | None => x00
  end.

Definition byte_of_Z (z : Z) : byte := byte_of_N (Z.to_N (z mod 256)).

Definition zeros (n : nat) : list byte := repeat x00 n.

(** [xor_bytes a b]: pointwise [bxor], as long as the first list. Bytes
    missing from the second list read as zero, the way [undefined] does
    under JavaScript's bit operators. *)
Fixpoint xor_bytes (a b : list byte) : list byte :=
  match a, b with
  | [], _ => []
  | x :: a', [] => x :: a'
  | x :: a', y :: b' => bxor x y :: xor_bytes a' b'
  end.

(** [take_pad n l]: the first [n] bytes of [l], zero-filled when [l] is
    shorter (reads past the end of a JavaScript array give [undefined]). *)
Fixpoint take_pad (n : nat) (l : list byte) : list byte :=
  match n with
  | O => []
  | S n' => match l with
            | [] => x00 :: take_pad n' []
            | x :: l' => x :: take_pad n' l'
            end
  end.

End Bytes.

(* ================================================================== *)
(** ** AES (FIPS-197), the block cipher behind [CryptoJS.AES]

    crypto-js evaluates the cipher with lookup tables over 32-bit words;
    the definitions below are the byte-level cipher those tables
    implement.  A block is a list of 16 bytes in input order (column
    major). *)

Module AES.
Import Bytes.

(** Multiplication by [x] in GF(2^8) modulo x^8+x^4+x^3+x+1. *)
Definition xtime (a : byte) : byte :=
  let '(a0, (a1, (a2, (a3, (a4, (a5, (a6, a7))))))) := Byte.to_bits a in
  Byte.of_bits (a7, (xorb a0 a7, (a1, (xorb a2 a7, (xorb a3 a7, (a4, (a5, a6))))))).

Definition gmul2 (a : byte) : byte := xtime a.
Definition gmul3 (a : byte) : byte := bxor (xtime a) a.
Definition gmul9 (a : byte) : byte := bxor (xtime (xtime (xtime a))) a.
Definition gmul11 (a : byte) : byte :=
  bxor (bxor (xtime (xtime (xtime a))) (xtime a)) a.
Definition gmul13 (a : byte) : byte :=
  bxor (bxor (xtime (xtime (xtime a))) (xtime (xtime a))) a.
Definition gmul14 (a : byte) : byte :=
  bxor (bxor (xtime (xtime (xtime a))) (xtime (xtime a))) (xtime a).

(** General product in GF(2^8), used only to build the S-box. *)
Definition gmul (a b : byte) : byte :=
  let '(b0, (b1, (b2, (b3, (b4, (b5, (b6, b7))))))) := Byte.to_bits b in
  let step (acc_p : byte * byte) (bit : bool) :=
    let '(acc, p) := acc_p in
    ((if bit then bxor acc p else acc), xtime p) in
  fst (fold_left step [b0; b1; b2; b3; b4; b5; b6; b7] (x00, a)).

Definition gsquare (a : byte) : byte := gmul a a.

(** [a^254], the multiplicative inverse (with 0 sent to 0). *)
Definition ginv (a : byte) : byte :=
  let a2 := gsquare a in
  let a4 := gsquare a2 in
  let a8 := gsquare a4 in
  let a16 := gsquare a8 in
  let a32 := gsquare a16 in
  let a64 := gsquare a32 in
  let a128 := gsquare a64 in
  gmul a128 (gmul a64 (gmul a32 (gmul a16 (gmul a8 (gmul a4 a2))))).

Definition rotl1 (a : byte) : byte :=
  let '(a0, (a1, (a2, (a3, (a4, (a5, (a6, a7))))))) := Byte.to_bits a in
  Byte.of_bits (a7, (a0, (a1, (a2, (a3, (a4, (a5, a6))))))).

Definition sbox_affine (b : byte) : byte :=
  let r1 := rotl1 b in
  let r2 := rotl1 r1 in
  let r3 := rotl1 r2 in
  let r4 := rotl1 r3 in
  bxor (bxor (bxor (bxor (bxor b r1) r2) r3) r4) x63.

Definition all_bytes : list byte :=
  map (fun n => byte_of_N (N.of_nat n)) (seq 0 256).

Definition SBOX : list byte :=
  Eval vm_compute in map (fun b => sbox_affine (ginv b)) all_bytes.

Definition sbox (b : byte) : byte := nth (Byte.to_nat b) SBOX x00.

Definition INV_SBOX : list byte :=
  Eval vm_compute in
    map (fun y => match find (fun x => Byte.eqb (sbox x) y) all_bytes with
                  | Some x => x
                  | None => x00
                  end) all_bytes.

Definition inv_sbox (b : byte) : byte := nth (Byte.to_nat b) INV_SBOX x00.

Definition sub_bytes (s : list byte) : list byte := map sbox s.
Definition inv_sub_bytes (s : list byte) : list byte := map inv_sbox s.

Definition shift_rows (s : list byte) : list byte :=
  match s with
  | [s0; s1; s2; s3; s4; s5; s6; s7; s8; s9; s10; s11; s12; s13; s14; s15] =>
      [s0; s5; s10; s15; s4; s9; s14; s3; s8; s13; s2; s7; s12; s1; s6; s11]
  | _ => s
  end.

Definition inv_shift_rows (s : list byte) : list byte :=
  match s with
  | [s0; s1; s2; s3; s4; s5; s6; s7; s8; s9; s10; s11; s12; s13; s14; s15] =>
      [s0; s13; s10; s7; s4; s1; s14; s11; s8; s5; s2; s15; s12; s9; s6; s3]
  | _ => s
  end.

Definition mix_column (a b c d : byte) : list byte :=
  [ bxor (bxor (bxor (gmul2 a) (gmul3 b)) c) d;
    bxor (bxor (bxor a (gmul2 b)) (gmul3 c)) d;
    bxor (bxor (bxor a b) (gmul2 c)) (gmul3 d);
    bxor (bxor (bxor (gmul3 a) b) c) (gmul2 d) ].

Definition inv_mix_column (a b c d : byte) : list byte :=
  [ bxor (bxor (bxor (gmul14 a) (gmul11 b)) (gmul13 c)) (gmul9 d);
    bxor (bxor (bxor (gmul9 a) (gmul14 b)) (gmul11 c)) (gmul13 d);
    bxor (bxor (bxor (gmul13 a) (gmul9 b)) (gmul14 c)) (gmul11 d);
    bxor (bxor (bxor (gmul11 a) (gmul13 b)) (gmul9 c)) (gmul14 d) ].

Fixpoint mix_columns (s : list byte) : list byte :=
  match s with
  | a :: b :: c :: d :: s' => mix_column a b c d ++ mix_columns s'
  | _ => s
  end.

Fixpoint inv_mix_columns (s : list byte) : list byte :=
  match s with
  | a :: b :: c :: d :: s' => inv_mix_column a b c d ++ inv_mix_columns s'
  | _ => s
  end.

Definition add_round_key (rk s : list byte) : list byte := xor_bytes s rk.

(** *** Key expansion (FIPS-197 section 5.2), [Nk] words of key *)

Definition RCON : list byte := [x00; x01; x02; x04; x08; x10; x20; x40; x80; x1b; x36].

Definition rot_word (w : list byte) : list byte :=
  match w with
  | [a; b; c; d] => [b; c; d; a]
  | _ => w
  end.

Definition sub_word (w : list byte) : list byte := map sbox w.

Definition nth_word (i : nat) (ws : list (list byte)) : list byte :=
  nth i ws (zeros 4).

(** One step of the schedule: the word of index [i], given the words
    before it. *)
Definition next_word (Nk i : nat) (ws : list (list byte)) : list byte :=
  let t := nth_word (i - 1) ws in
  let t' :=
    if Nat.eqb (i mod Nk) 0 then
      xor_bytes (sub_word (rot_word t)) [nth (i / Nk) RCON x00; x00; x00; x00]
    else if andb (Nat.ltb 6 Nk) (Nat.eqb (i mod Nk) 4) then sub_word t
    else t in
  xor_bytes (nth_word (i - Nk) ws) t'.

Fixpoint expand_from (Nk i fuel : nat) (ws : list (list byte)) : list (list byte) :=
  match fuel with
  | O => ws
  | S fuel' => expand_from Nk (S i) fuel' (ws ++ [next_word Nk i ws])
  end.

Fixpoint chunks4 (n : nat) (l : list byte) : list (list byte) :=
  match n with
  | O => []
  | S n' => take_pad 4 l :: chunks4 n' (skipn 4 l)
  end.

Fixpoint group4 (ws : list (list byte)) : list (list byte) :=
  match ws with
  | a :: b :: c :: d :: ws' => (a ++ b ++ c ++ d) :: group4 ws'
  | _ => []
  end.

(** The [Nk + 7] round keys (16 bytes each) of a key of [4 * Nk] bytes. *)
Definition round_keys (Nk : nat) (key : list byte) : list (list byte) :=
  group4 (expand_from Nk Nk (4 * (Nk + 7) - Nk) (chunks4 Nk key)).

(** *** The cipher and its inverse (FIPS-197 sections 5.1 and 5.3) *)

Definition round (rk s : list byte) : list byte :=
  add_round_key rk (mix_columns (shift_rows (sub_bytes s))).

Definition final_round (rk s : list byte) : list byte :=
  add_round_key rk (shift_rows (sub_bytes s)).

Definition inv_round (rk s : list byte) : list byte :=
  inv_sub_bytes (inv_shift_rows (inv_mix_columns (add_round_key rk s))).

Definition inv_final_round (rk s : list byte) : list byte :=
  inv_sub_bytes (inv_shift_rows (add_round_key rk s)).

Fixpoint rounds (rks : list (list byte)) (s : list byte) : list byte :=
  match rks with
  | [] => s
  | [rk] => final_round rk s
  | rk :: rks' => rounds rks' (round rk s)
  end.

Fixpoint inv_rounds (rks : list (list byte)) (s : list byte) : list byte :=
  match rks with
  | [] => s
  | [rk] => inv_final_round rk s
  | rk :: rks' => inv_round rk (inv_rounds rks' s)
  end.

Definition cipher (rks : list (list byte)) (s : list byte) : list byte :=
  match rks with
  | [] => s
  | rk0 :: rks' => rounds rks' (add_round_key rk0 s)
  end.

Definition inv_cipher (rks : list (list byte)) (s : list byte) : list byte :=
  match rks with
  | [] => s
  | rk0 :: rks' => add_round_key rk0 (inv_rounds rks' s)
  end.

Definition encrypt_block (Nk : nat) (key block : list byte) : list byte :=
  cipher (round_keys Nk key) (take_pad 16 block).

Definition decrypt_block (Nk : nat) (key block : list byte) : list byte :=
  inv_cipher (round_keys Nk key) (take_pad 16 block).

End AES.

(* ================================================================== *)
(** ** JavaScript strings and UTF-8 *)

Module JsString.
Import Bytes.

(** A JavaScript string: its UTF-16 code units. *)
Definition jsstring := list N.

(** The code units of a string are 16-bit. *)
Definition wf_string (s : jsstring) : Prop := Forall (fun c => (c < 65536)%N) s.

(** The same, as a test. *)
Definition wf_stringb (s : jsstring) : bool := forallb (fun c => (c <? 65536)%N) s.

(** An ASCII literal as a JavaScript string. *)
Definition of_bytes (l : list byte) : jsstring := map Byte.to_N l.

Definition is_high_surrogate (c : N) : bool := ((55296 <=? c) && (c <=? 56319))%N.
Definition is_low_surrogate (c : N) : bool := ((56320 <=? c) && (c <=? 57343))%N.

(** The UTF-8 bytes of one code point. *)
Definition utf8_of_code_point (cp : N) : list byte :=
  if (cp <? 128)%N then [byte_of_N cp]
  else if (cp <? 2048)%N then
    [byte_of_N (192 + cp / 64); byte_of_N (128 + cp mod 64)]
  else if (cp <? 65536)%N then
    [byte_of_N (224 + cp / 4096); byte_of_N (128 + (cp / 64) mod 64);
     byte_of_N (128 + cp mod 64)]
  else
    [byte_of_N (240 + cp / 262144); byte_of_N (128 + (cp / 4096) mod 64);
     byte_of_N (128 + (cp / 64) mod 64); byte_of_N (128 + cp mod 64)].

(** [unescape(encodeURIComponent(s))] read as bytes: the UTF-8 encoding of
    [s]; [None] is the [URIError] raised on an unpaired surrogate. *)
Fixpoint utf8_encode (s : jsstring) : option (list byte) :=
  match s with
  | [] => Some []
  | c :: s' =>
      if is_low_surrogate c then None
      else if is_high_surrogate c then
        match s' with
        | c2 :: s'' =>
            if is_low_surrogate c2 then
              match utf8_encode s'' with
              | Some bs =>
                  Some (utf8_of_code_point ((c - 55296) * 1024 + (c2 - 56320) + 65536) ++ bs)
              | None => None
              end
            else None
        | [] => None
        end
      else
        match utf8_encode s' with
        | Some bs => Some (utf8_of_code_point c ++ bs)
        | None => None
        end
  end.

(** The string has no unpaired surrogate: [encodeURIComponent] accepts it. *)
Definition well_formed_utf16 (s : jsstring) : bool :=
  match utf8_encode s with
  | Some _ => true
  | None => false
  end.

(** A code unit that is not a surrogate. *)
Definition plain (c : N) : Prop :=
  is_high_surrogate c = false /\ is_low_surrogate c = false.

Definition is_continuation (b : byte) : bool :=
  ((128 <=? Byte.to_N b) && (Byte.to_N b <=? 191))%N.

(** The UTF-16 code units of a code point. *)
Definition utf16_of_code_point (cp : N) : jsstring :=
  if (cp <? 65536)%N then [cp]
  else [55296 + (cp - 65536) / 1024; 56320 + (cp - 65536) mod 1024]%N.

(** [decodeURIComponent(escape(latin1))]: the string whose UTF-8 encoding
    the bytes are; [None] when they are not well-formed UTF-8 (overlong
    forms, encoded surrogates and code points above U+10FFFF included). *)
Fixpoint utf8_decode (bs : list byte) : option jsstring :=
  match bs with
  | [] => Some []
  | b :: bs1 =>
      let n := Byte.to_N b in
      if (n <? 128)%N then option_map (cons n) (utf8_decode bs1)
      else if (n <? 194)%N then None
      else if (n <? 224)%N then
        match bs1 with
        | b1 :: bs2 =>
            if is_continuation b1 then
              option_map (cons ((n - 192) * 64 + (Byte.to_N b1 - 128))%N) (utf8_decode bs2)
            else None
        | _ => None
        end
      else if (n <? 240)%N then
        match bs1 with
        | b1 :: b2 :: bs3 =>
            let cp := ((n - 224) * 4096 + (Byte.to_N b1 - 128) * 64 + (Byte.to_N b2 - 128))%N in
            if is_continuation b1 && is_continuation b2
               && (2048 <=? cp)%N && negb ((55296 <=? cp) && (cp <=? 57343))%N
            then option_map (cons cp) (utf8_decode bs3)
            else None
        | _ => None
        end
      else if (n <? 245)%N then
        match bs1 with
        | b1 :: b2 :: b3 :: bs4 =>
            let cp := ((n - 240) * 262144 + (Byte.to_N b1 - 128) * 4096
                       + (Byte.to_N b2 - 128) * 64 + (Byte.to_N b3 - 128))%N in
            if is_continuation b1 && is_continuation b2 && is_continuation b3
               && (65536 <=? cp)%N && (cp <=? 1114111)%N
            then option_map (app (utf16_of_code_point cp)) (utf8_decode bs4)
            else None
        | _ => None
        end
      else None
  end.

(** Unicode scalar values: code points that are not surrogates. *)
Definition is_scalar (cp : N) : Prop :=
  (cp < 1114112 /\ ~ (55296 <= cp <= 57343))%N.

End JsString.

(* ================================================================== *)
(** ** JavaScript values and completions *)

Module Js.
Import JsString.

(** The exceptions the embedded calls can raise. *)
Inductive JsError : Type :=
| URIError        (* encodeURIComponent on an unpaired surrogate *)
| MalformedUtf8   (* crypto-js: Error('Malformed UTF-8 data') *)
| SyntaxError     (* JSON.parse *)
| TypeError.      (* property access on null *)

(** The outcome of evaluating a piece of code: a value, or an exception
    on its way to the nearest [catch]. *)
Inductive completion (A : Type) : Type :=
| Normal (a : A)
| Throw (e : JsError).

Arguments Normal {A} a.
Arguments Throw {A} e.

Definition bind {A B} (c : completion A) (k : A -> completion B) : completion B :=
  match c with
  | Normal a => k a
  | Throw e => Throw e
  end.

(** [try { body } catch (e) { handler }] *)
Definition try_catch {A} (body : completion A) (handler : JsError -> completion A)
  : completion A :=
  match body with
  | Normal a => Normal a
  | Throw e => handler e
  end.

(** [option] results of the library models, with the exception they stand for. *)
Definition or_throw {A} (e : JsError) (o : option A) : completion A :=
  match o with
  | Some a => Normal a
  | None => Throw e
  end.

(** The values [JSON.parse] builds, and [undefined].  A number is kept
    exactly when it was written as an integer of magnitude at most 2^53
    ([JNum]); any other number literal is kept as written ([JFloat]) and
    its floating-point value is left to the [Platform]. *)
#[warnings="-register-all"]
Inductive JsValue : Type :=
| JUndefined
| JNull
| JBool (b : bool)
| JNum (z : Z)
| JFloat (literal : jsstring)
| JStr (s : jsstring)
| JArr (elements : list JsValue)
| JObj (members : list (jsstring * JsValue)).

Definition jsstring_eqb (a b : jsstring) : bool :=
  if list_eq_dec N.eq_dec a b then true else false.

(** Own property of an object built by [JSON.parse]: the last member
    with that name wins. *)
Fixpoint lookup (name : jsstring) (members : list (jsstring * JsValue)) : JsValue :=
  match members with
  | [] => JUndefined
  | (k, v) :: rest =>
      match lookup name rest with
      | JUndefined => if jsstring_eqb k name then v else JUndefined
      | found => found
      end
  end.

End Js.

Declare Scope js_scope.
Delimit Scope js_scope with js.
Notation "x <- c ;; k" := (Js.bind c (fun x => k))
  (at level 61, c at next level, right associativity) : js_scope.

(* ================================================================== *)
(** ** JSON: [JSON.stringify] of the payload and [JSON.parse] *)

Module JSON.
Import JsString Js.
Local Open Scope N_scope.

Definition hex_digit (n : N) : N := if n <? 10 then 48 + n else 87 + n.

(** [\uXXXX] with lower-case hexadecimal digits. *)
Definition unicode_escape (c : N) : jsstring :=
  [92; 117; hex_digit ((c / 4096) mod 16); hex_digit ((c / 256) mod 16);
   hex_digit ((c / 16) mod 16); hex_digit (c mod 16)].

(** QuoteJSONString on a code unit that is not a surrogate. *)
Definition quote_unit (c : N) : jsstring :=
  if c =? 34 then [92; 34]
  else if c =? 92 then [92; 92]
  else if c =? 8 then [92; 98]
  else if c =? 12 then [92; 102]
  else if c =? 10 then [92; 110]
  else if c =? 13 then [92; 114]
  else if c =? 9 then [92; 116]
  else if c <? 32 then unicode_escape c
  else [c].

(** An unpaired surrogate: escaped by a well-formed [JSON.stringify]
    (ECMAScript 2019 and later), copied as it is before that. *)
Definition quote_lone (well_formed : bool) (c : N) : jsstring :=
  if well_formed then unicode_escape c else [c].

Fixpoint quote_body (well_formed : bool) (s : jsstring) : jsstring :=
  match s with
  | [] => []
  | c :: s' =>
      if is_high_surrogate c then
        match s' with
        | c2 :: s'' =>
            if is_low_surrogate c2 then c :: c2 :: quote_body well_formed s''
            else quote_lone well_formed c ++ quote_body well_formed s'
        | [] => quote_lone well_formed c
        end
      else if is_low_surrogate c then quote_lone well_formed c ++ quote_body well_formed s'
      else quote_unit c ++ quote_body well_formed s'
  end.

Definition quote (well_formed : bool) (s : jsstring) : jsstring :=
  34 :: quote_body well_formed s ++ [34].

Fixpoint uint_units (d : Decimal.uint) : jsstring :=
  match d with
  | Decimal.Nil => []
  | Decimal.D0 d' => 48 :: uint_units d'
  | Decimal.D1 d' => 49 :: uint_units d'
  | Decimal.D2 d' => 50 :: uint_units d'
  | Decimal.D3 d' => 51 :: uint_units d'
  | Decimal.D4 d' => 52 :: uint_units d'
  | Decimal.D5 d' => 53 :: uint_units d'
  | Decimal.D6 d' => 54 :: uint_units d'
  | Decimal.D7 d' => 55 :: uint_units d'
  | Decimal.D8 d' => 56 :: uint_units d'
  | Decimal.D9 d' => 57 :: uint_units d'
  end.

(** Number::toString of an integer (below 10^21 in magnitude): its
    decimal digits, with a minus sign when negative. *)
Definition number_to_string (z : Z) : jsstring :=
  match Z.to_int z with
  | Decimal.Pos d => uint_units d
  | Decimal.Neg d => 45 :: uint_units d
  end.

(** [JSON.stringify({ t: t, v: v })] for a number [t] and a string [v]. *)
Definition stringify_payload (well_formed : bool) (t : Z) (v : jsstring) : jsstring :=
  [123; 34; 116; 34; 58] ++ number_to_string t
  ++ [44; 34; 118; 34; 58] ++ quote well_formed v ++ [125].

(** *** [JSON.parse] *)

Definition is_ws (c : N) : bool := (c =? 32) || (c =? 9) || (c =? 10) || (c =? 13).

Fixpoint skip_ws (s : jsstring) : jsstring :=
  match s with
  | c :: s' => if is_ws c then skip_ws s' else s
  | [] => []
  end.

Definition hex_value (c : N) : option N :=
  if (48 <=? c) && (c <=? 57) then Some (c - 48)
  else if (97 <=? c) && (c <=? 102) then Some (c - 87)
  else if (65 <=? c) && (c <=? 70) then Some (c - 55)
  else None.

Definition unescape (e : N) : option N :=
  if e =? 34 then Some 34
  else if e =? 92 then Some 92
  else if e =? 47 then Some 47
  else if e =? 98 then Some 8
  else if e =? 102 then Some 12
  else if e =? 110 then Some 10
  else if e =? 114 then Some 13
  else if e =? 116 then Some 9
  else None.

Definition cons_unit (c : N) (r : option (jsstring * jsstring)) : option (jsstring * jsstring) :=
  match r with
  | Some (body, rest) => Some (c :: body, rest)
  | None => None
  end.

(** The characters of a string literal after its opening quote, up to
    and including the closing quote. *)
Fixpoint parse_string_body (s : jsstring) : option (jsstring * jsstring) :=
  match s with
  | [] => None
  | c :: s' =>
      if c =? 34 then Some ([], s')
      else if c =? 92 then
        match s' with
        | e :: s'' =>
            if e =? 117 then
              match s'' with
              | h1 :: h2 :: h3 :: h4 :: s3 =>
                  match hex_value h1, hex_value h2, hex_value h3, hex_value h4 with
                  | Some a, Some b, Some c', Some d =>
                      cons_unit (a * 4096 + b * 256 + c' * 16 + d) (parse_string_body s3)
                  | _, _, _, _ => None
                  end
              | _ => None
              end
            else
              match unescape e with
              | Some u => cons_unit u (parse_string_body s'')
              | None => None
              end
        | [] => None
        end
      else if c <? 32 then None
      else cons_unit c (parse_string_body s')
  end.

Definition is_digit (c : N) : bool := (48 <=? c) && (c <=? 57).

(** The longest prefix of digits, and what follows it. *)
Fixpoint digits (s : jsstring) : jsstring * jsstring :=
  match s with
  | c :: s' =>
      if is_digit c then let (ds, rest) := digits s' in (c :: ds, rest)
      else ([], s)
  | [] => ([], [])
  end.

(** What follows a run of digits does not start with a digit. *)
Definition not_digit_first (s : jsstring) : Prop :=
  match s with
  | [] => True
  | c :: _ => is_digit c = false
  end.

Definition digits_value (ds : jsstring) : N :=
  fold_left (fun acc d => acc * 10 + (d - 48)) ds 0.

Definition max_safe : Z := 9007199254740992.

(** A number literal.  [None]: not a number of the JSON grammar. *)
Definition parse_number (s : jsstring) : option (JsValue * jsstring) :=
  let '(neg, s1) := match s with
                    | c :: s' => if c =? 45 then (true, s') else (false, s)
                    | [] => (false, s)
                    end in
  let '(int_part, s2) := digits s1 in
  match int_part with
  | [] => None
  | d :: more =>
      let r_int := if (d =? 48) && negb (Nat.eqb (length more) 0) then None
                   else Some (int_part, s2) in
      match r_int with
      | None => None
      | Some _ =>
          let r_frac :=
            match s2 with
            | c :: s' =>
                if c =? 46 then
                  let '(f, r) := digits s' in
                  match f with [] => None | _ => Some (c :: f, r) end
                else Some ([], s2)
            | [] => Some ([], s2)
            end in
          match r_frac with
          | None => None
          | Some (frac, s3) =>
              let r_exp :=
                match s3 with
                | c :: s' =>
                    if (c =? 101) || (c =? 69) then
                      let '(sign, s'') :=
                        match s' with
                        | g :: s4 => if (g =? 43) || (g =? 45) then ([g], s4) else ([], s')
                        | [] => ([], s')
                        end in
                      let '(e, r) := digits s'' in
                      match e with [] => None | _ => Some (c :: sign ++ e, r) end
                    else Some ([], s3)
                | [] => Some ([], s3)
                end in
              match r_exp with
              | None => None
              | Some (exp, s4) =>
                  let literal := (if neg then [45] else []) ++ int_part ++ frac ++ exp in
                  let n := Z.of_N (digits_value int_part) in
                  match frac, exp with
                  | [], [] =>
                      if (neg && (n =? 0)%Z)%bool then Some (JFloat literal, s4)
                      else if (n <=? max_safe)%Z
                           then Some (JNum (if neg then - n else n)%Z, s4)
                           else Some (JFloat literal, s4)
                  | _, _ => Some (JFloat literal, s4)
                  end
              end
          end
      end
  end.

Fixpoint strip_prefix (p s : jsstring) : option jsstring :=
  match p, s with
  | [], _ => Some s
  | a :: p', b :: s' => if a =? b then strip_prefix p' s' else None
  | _ :: _, [] => None
  end.

Definition parse_literal (p : jsstring) (v : JsValue) (s : jsstring)
  : option (JsValue * jsstring) :=
  match strip_prefix p s with
  | Some rest => Some (v, rest)
  | None => None
  end.

(** Recursive descent over the JSON grammar.  [fuel] bounds the depth of
    the calls; at most two calls are nested between two consumed
    characters, so [parse] below starts with twice the length of the text
    plus two. *)
Fixpoint parse_value (fuel : nat) (s : jsstring) {struct fuel}
  : option (JsValue * jsstring) :=
  match fuel with
  | O => None
  | S fuel' =>
      match skip_ws s with
      | [] => None
      | c :: s' =>
          if c =? 34 then
            match parse_string_body s' with
            | Some (str, rest) => Some (JStr str, rest)
            | None => None
            end
          else if c =? 91 then
            match skip_ws s' with
            | c1 :: r1 =>
                if c1 =? 93 then Some (JArr [], r1)
                else match parse_elements fuel' s' with
                     | Some (vs, rest) => Some (JArr vs, rest)
                     | None => None
                     end
            | [] => None
            end
          else if c =? 123 then
            match skip_ws s' with
            | c1 :: r1 =>
                if c1 =? 125 then Some (JObj [], r1)
                else match parse_members fuel' s' with
                     | Some (ms, rest) => Some (JObj ms, rest)
                     | None => None
                     end
            | [] => None
            end
          else if c =? 116 then parse_literal [116; 114; 117; 101] (JBool true) (c :: s')
          else if c =? 102 then parse_literal [102; 97; 108; 115; 101] (JBool false) (c :: s')
          else if c =? 110 then parse_literal [110; 117; 108; 108] JNull (c :: s')
          else parse_number (c :: s')
      end
  end

with parse_elements (fuel : nat) (s : jsstring) {struct fuel}
  : option (list JsValue * jsstring) :=
  match fuel with
  | O => None
  | S fuel' =>
      match parse_value fuel' s with
      | Some (v, rest) =>
          match skip_ws rest with
          | c :: r =>
              if c =? 44 then
                match parse_elements fuel' r with
                | Some (vs, rest') => Some (v :: vs, rest')
                | None => None
                end
              else if c =? 93 then Some ([v], r)
              else None
          | [] => None
          end
      | None => None
      end
  end

with parse_members (fuel : nat) (s : jsstring) {struct fuel}
  : option (list (jsstring * JsValue) * jsstring) :=
  match fuel with
  | O => None
  | S fuel' =>
      match skip_ws s with
      | q :: r0 =>
          if q =? 34 then
            match parse_string_body r0 with
            | Some (k, r1) =>
                match skip_ws r1 with
                | colon :: r2 =>
                    if colon =? 58 then
                      match parse_value fuel' r2 with
                      | Some (v, r3) =>
                          match skip_ws r3 with
                          | c :: r4 =>
                              if c =? 44 then
                                match parse_members fuel' r4 with
                                | Some (ms, rest) => Some ((k, v) :: ms, rest)
                                | None => None
                                end
                              else if c =? 125 then Some ([(k, v)], r4)
                              else None
                          | [] => None
                          end
                      | None => None
                      end
                    else None
                | [] => None
                end
            | None => None
            end
          else None
      | [] => None
      end
  end.

(** [JSON.parse(text)]: the value, or a [SyntaxError]. *)
Definition parse (text : jsstring) : completion JsValue :=
  match parse_value (2 * length text + 2) text with
  | Some (v, rest) =>
      match skip_ws rest with
      | [] => Normal v
      | _ :: _ => Throw SyntaxError
      end
  | None => Throw SyntaxError
  end.

End JSON.

(* ================================================================== *)
(** ** crypto-js: WordArrays, encoders, padding

    The behaviour of crypto-js 4 on the calls of the source, edge cases
    included: none of these calls validates its input. *)

Module CryptoJS.
Import Bytes JsString Js.
Local Open Scope js_scope.

(** [CryptoJS.lib.WordArray].  [words] is the big-endian byte image of the
    array of 32-bit words; [sigBytes] is the number of significant bytes,
    which the library never checks against [words]. *)
Record WordArray : Type := { words : list byte; sigBytes : Z }.

(** Bytes written one after the other into fresh words: the last word is
    completed with zero bits. *)
Definition pad_words (bs : list byte) : list byte :=
  bs ++ zeros ((4 - length bs mod 4) mod 4).

(** The [sigBytes] bytes a reader takes from the words; a word that is
    not there reads as zero. *)
Definition sig_bytes (wa : WordArray) : list byte :=
  take_pad (Z.to_nat (sigBytes wa)) (words wa).

(** [CryptoJS.enc.Latin1.parse], on the character codes of the string. *)
Definition Latin1_parse (bs : list byte) : WordArray :=
  {| words := pad_words bs; sigBytes := Z.of_nat (length bs) |}.

(** [CryptoJS.enc.Utf8.parse(s)]:
    [Latin1.parse(unescape(encodeURIComponent(s)))]. *)
Definition Utf8_parse (s : jsstring) : completion WordArray :=
  bs <- or_throw URIError (utf8_encode s);;
  Normal (Latin1_parse bs).

(** [CryptoJS.enc.Utf8.stringify(wa)]:
    [decodeURIComponent(escape(Latin1.stringify(wa)))], any failure
    rethrown as [Error('Malformed UTF-8 data')]. *)
Definition Utf8_stringify (wa : WordArray) : completion jsstring :=
  or_throw MalformedUtf8 (utf8_decode (sig_bytes wa)).

(** [CryptoJS.lib.WordArray.random(16)], given the 16 bytes drawn. *)
Definition WordArray_random16 (drawn : list byte) : WordArray :=
  {| words := drawn; sigBytes := 16 |}.

(** [a.concat(b)].  Exact when both arrays hold whole words only, which
    is the case at its one use in the source. *)
Definition concat (a b : WordArray) : WordArray :=
  {| words := pad_words (sig_bytes a ++ sig_bytes b);
     sigBytes := sigBytes a + sigBytes b |}.

(** *** Base64 *)

Local Open Scope N_scope.

(** [map.charAt(n)] for the alphabet [A-Za-z0-9+/]. *)
Definition b64_char (n : N) : N :=
  if n <? 26 then 65 + n
  else if n <? 52 then 71 + n
  else if n <? 62 then n - 4
  else if n =? 62 then 43
  else 47.

(** [reverseMap[c]], with [undefined] read as 0 the way the bit
    operators of the parse loop read it. *)
Definition b64_value (c : N) : N :=
  if (65 <=? c) && (c <=? 90) then c - 65
  else if (97 <=? c) && (c <=? 122) then c - 71
  else if (48 <=? c) && (c <=? 57) then c + 4
  else if c =? 43 then 62
  else if c =? 47 then 63
  else if c =? 61 then 64
  else 0.

Fixpoint b64_encode (bs : list byte) : jsstring :=
  match bs with
  | [] => []
  | [a] =>
      let a := Byte.to_N a in
      [b64_char (a / 4); b64_char ((a mod 4) * 16); 61; 61]
  | [a; b] =>
      let a := Byte.to_N a in
      let b := Byte.to_N b in
      [b64_char (a / 4); b64_char ((a mod 4) * 16 + b / 16);
       b64_char ((b mod 16) * 4); 61]
  | a :: b :: c :: rest =>
      let a := Byte.to_N a in
      let b := Byte.to_N b in
      let c := Byte.to_N c in
      b64_char (a / 4) :: b64_char ((a mod 4) * 16 + b / 16)
      :: b64_char ((b mod 16) * 4 + c / 64) :: b64_char (c mod 64)
      :: b64_encode rest
  end.

(** [CryptoJS.enc.Base64.stringify(wa)]. *)
Definition Base64_stringify (wa : WordArray) : jsstring := b64_encode (sig_bytes wa).

(** The part of the string before its first [=]. *)
Fixpoint before_padding (s : jsstring) : jsstring :=
  match s with
  | [] => []
  | c :: s' => if c =? 61 then [] else c :: before_padding s'
  end.

(** The parse loop: every character at an index that is not a multiple
    of four completes one byte with the character before it.  (The bits
    a shift carries past the byte fall on equal bits of the byte before,
    or off the word.) *)
Fixpoint b64_decode (s : jsstring) : list byte :=
  match s with
  | c0 :: c1 :: c2 :: c3 :: rest =>
      byte_of_N (b64_value c0 * 4 + b64_value c1 / 16)
      :: byte_of_N (b64_value c1 * 16 + b64_value c2 / 4)
      :: byte_of_N (b64_value c2 * 64 + b64_value c3)
      :: b64_decode rest
  | [c0; c1; c2] =>
      [byte_of_N (b64_value c0 * 4 + b64_value c1 / 16);
       byte_of_N (b64_value c1 * 16 + b64_value c2 / 4)]
  | [c0; c1] => [byte_of_N (b64_value c0 * 4 + b64_value c1 / 16)]
  | _ => []
  end.

(** [CryptoJS.enc.Base64.parse(s)]; it never fails. *)
Definition Base64_parse (s : jsstring) : WordArray :=
  Latin1_parse (b64_decode (before_padding s)).

(** *** PKCS#7 *)

(** [CryptoJS.pad.Pkcs7.pad] for 16-byte blocks, on the data bytes. *)
Definition Pkcs7_pad (data : list byte) : list byte :=
  let n := (16 - length data mod 16)%nat in
  data ++ repeat (byte_of_N (N.of_nat n)) n.

End CryptoJS.

(* ================================================================== *)
(** ** The platform

    What the embedding leaves to the JavaScript engine and to crypto-js. *)

Record Platform : Type := {
  (** [JSON.stringify] escapes unpaired surrogates (ECMAScript 2019). *)
  well_formed_stringify : bool;
  (** crypto-js AES on one block under a key that has not 16, 24 or 32
      bytes: the key, the block, the result. *)
  nonstd_encrypt_block : CryptoJS.WordArray -> list byte -> list byte;
  nonstd_decrypt_block : CryptoJS.WordArray -> list byte -> list byte;
  (** Truthiness of a number kept as its literal: it is not zero. *)
  float_truthy : JsString.jsstring -> bool;
  (** [Math.abs(now - t) > 60000] for a [t] that is neither a [JNum] nor
      a boolean (the subtraction converts [t] to a floating-point number). *)
  stale_coerced : Z -> Js.JsValue -> bool
}.

(* ================================================================== *)
(** ** crypto-js: [CryptoJS.AES] in CBC mode with PKCS#7 padding *)

Module Cipher.
Import Bytes JsString Js CryptoJS.
Local Open Scope js_scope.

(** Keys of AES-128, AES-192 and AES-256. *)
Definition standard_key (key : WordArray) : Prop :=
  (sigBytes key = 16 \/ sigBytes key = 24 \/ sigBytes key = 32)%Z.

(** The same sizes, as a number of bytes. *)
Definition standard_length (n : nat) : Prop := n = 16%nat \/ n = 24%nat \/ n = 32%nat.

(** The block transform chosen by the size of the key: AES-128, AES-192
    or AES-256 on the key words, anything else left to the platform. *)
Definition block_encrypt (P : Platform) (key : WordArray) (block : list byte) : list byte :=
  if (sigBytes key =? 16)%Z then AES.encrypt_block 4 (words key) block
  else if (sigBytes key =? 24)%Z then AES.encrypt_block 6 (words key) block
  else if (sigBytes key =? 32)%Z then AES.encrypt_block 8 (words key) block
  else take_pad 16 (nonstd_encrypt_block P key block).

Definition block_decrypt (P : Platform) (key : WordArray) (block : list byte) : list byte :=
  if (sigBytes key =? 16)%Z then AES.decrypt_block 4 (words key) block
  else if (sigBytes key =? 24)%Z then AES.decrypt_block 6 (words key) block
  else if (sigBytes key =? 32)%Z then AES.decrypt_block 8 (words key) block
  else take_pad 16 (nonstd_decrypt_block P key block).

(** CBC over [n] blocks: each plaintext block is xored with the block
    before it (the IV at first) and then encrypted. *)
Fixpoint cbc_encrypt (E : list byte -> list byte) (n : nat) (prev data : list byte)
  : list byte :=
  match n with
  | O => []
  | S n' =>
      let c := E (xor_bytes (take_pad 16 data) prev) in
      c ++ cbc_encrypt E n' c (skipn 16 data)
  end.

(** CBC decryption of [n] blocks; words missing from the last block read
    as zero. *)
Fixpoint cbc_decrypt (D : list byte -> list byte) (n : nat) (prev data : list byte)
  : list byte :=
  match n with
  | O => []
  | S n' =>
      let c := take_pad 16 data in
      xor_bytes (D c) prev ++ cbc_decrypt D n' c (skipn 16 data)
  end.

(** [CryptoJS.AES.encrypt(message, key, { iv, mode: CBC, padding: Pkcs7 })
      .ciphertext] for a string message and a WordArray key. *)
Definition AES_encrypt (P : Platform) (message : jsstring) (key iv : WordArray)
  : completion WordArray :=
  m <- Utf8_parse message;;
  let padded := Pkcs7_pad (sig_bytes m) in
  let ct := cbc_encrypt (block_encrypt P key) (length padded / 16)
                        (take_pad 16 (words iv)) padded in
  Normal {| words := ct; sigBytes := Z.of_nat (length ct) |}.

Definition ceil_div (a b : Z) : Z := (- ((- a) / b))%Z.

(** [CryptoJS.AES.decrypt({ ciphertext }, key, { iv, mode: CBC, padding:
    Pkcs7 })].  The decryptor processes [ceil(sigBytes / 16)] blocks and
    then removes as many bytes as the low byte of the last significant
    word says ([Pkcs7.unpad] checks nothing).  With no significant byte
    nothing is processed and nothing removed. *)
Definition AES_decrypt (P : Platform) (ciphertext key iv : WordArray) : WordArray :=
  let c := sigBytes ciphertext in
  if (c <=? 0)%Z then {| words := []; sigBytes := c |}
  else
    let nb := Z.to_nat (ceil_div c 16) in
    let data := firstn (4 * Z.to_nat (ceil_div c 4)) (words ciphertext) in
    let processed := cbc_decrypt (block_decrypt P key) nb
                                 (take_pad 16 (words iv)) (take_pad (16 * nb) data) in
    let nPaddingBytes :=
      Z.of_N (Byte.to_N (nth (4 * Z.to_nat ((c - 1) / 4) + 3) processed x00)) in
    {| words := processed; sigBytes := c - nPaddingBytes |}.

End Cipher.

(* ================================================================== *)
(** ** The codec of [crypto_utils.js] *)

Module Codec.
Import Bytes JsString Js CryptoJS Cipher.
Local Open Scope js_scope.

(** [data.name] on a value built by [JSON.parse]: a [TypeError] on
    [null], the own property of an object, [undefined] otherwise (the
    prototypes have neither a [t] nor a [v]). *)
Definition get_property (data : JsValue) (name : jsstring) : completion JsValue :=
  match data with
  | JNull | JUndefined => Throw TypeError
  | JObj members => Normal (lookup name members)
  | _ => Normal JUndefined
  end.

(** ToBoolean, as [if (data.t)] applies it. *)
Definition truthy (P : Platform) (v : JsValue) : bool :=
  match v with
  | JUndefined | JNull => false
  | JBool b => b
  | JNum z => negb (z =? 0)%Z
  | JFloat literal => float_truthy P literal
  | JStr s => negb (Nat.eqb (length s) 0)
  | JArr _ | JObj _ => true
  end.

(** [Math.abs(now - t) > 60000]. *)
Definition stale (P : Platform) (now : Z) (t : JsValue) : bool :=
  match t with
  | JNum z => (60000 <? Z.abs (now - z))%Z
  | JBool b => (60000 <? Z.abs (now - (if b then 1 else 0)))%Z
  | JNull => (60000 <? Z.abs now)%Z
  | JUndefined => false
  | _ => stale_coerced P now t
  end.

Definition name_t : jsstring := [116%N].
Definition name_v : jsstring := [118%N].

(** The [try] block of [encryptWithDynamicIV(value, keyStr)], with the
    clock reading [now] of [Date.now()] and the bytes [drawn] by
    [WordArray.random(16)]. *)
Definition encrypt_try (P : Platform) (now : Z) (drawn : list byte)
    (value keyStr : jsstring) : completion jsstring :=
  let payload := JSON.stringify_payload (well_formed_stringify P) now value in
  key <- Utf8_parse keyStr;;
  let iv := WordArray_random16 drawn in
  ciphertext <- AES_encrypt P payload key iv;;
  let combined := concat iv ciphertext in
  Normal (Base64_stringify combined).

(** [encryptWithDynamicIV]: the [catch] logs the error and throws it
    again. *)
Definition encryptWithDynamicIV (P : Platform) (now : Z) (drawn : list byte)
    (value keyStr : jsstring) : completion jsstring :=
  try_catch (encrypt_try P now drawn value keyStr) (fun error => Throw error).

(** The [try] block of [decryptWithDynamicIV(ciphertextBase64, keyStr)],
    with the clock reading [now] of [Date.now()]. *)
Definition decrypt_try (P : Platform) (now : Z)
    (ciphertextBase64 keyStr : jsstring) : completion JsValue :=
  let rawData := Base64_parse ciphertextBase64 in
  let ivWords := firstn 16 (words rawData) in
  let iv := {| words := ivWords; sigBytes := 16 |} in
  let cipherWords := skipn 16 (words rawData) in
  let cipherSigBytes := (sigBytes rawData - 16)%Z in
  let ciphertext := {| words := cipherWords; sigBytes := cipherSigBytes |} in
  key <- Utf8_parse keyStr;;
  let decrypted := AES_decrypt P ciphertext key iv in
  jsonStr <- Utf8_stringify decrypted;;
  if Nat.eqb (length jsonStr) 0 then Normal JNull
  else
    data <- JSON.parse jsonStr;;
    t <- get_property data name_t;;
    if truthy P t && stale P now t then Normal JNull
    else get_property data name_v.

(** [decryptWithDynamicIV]: the [catch] logs the error and returns
    [null]. *)
Definition decryptWithDynamicIV (P : Platform) (now : Z)
    (ciphertextBase64 keyStr : jsstring) : completion JsValue :=
  try_catch (decrypt_try P now ciphertextBase64 keyStr) (fun e => Normal JNull).

(** *** Notions the statements use *)

(** Steps 1 to 6 of the [try] block of [decryptWithDynamicIV]: the text
    the blob decrypts to under the key. *)
Definition decrypted_text (P : Platform) (ciphertextBase64 keyStr : jsstring)
  : completion jsstring :=
  let rawData := Base64_parse ciphertextBase64 in
  let iv := {| words := firstn 16 (words rawData); sigBytes := 16 |} in
  let ciphertext := {| words := skipn 16 (words rawData);
                       sigBytes := (sigBytes rawData - 16)%Z |} in
  key <- Utf8_parse keyStr;;
  Utf8_stringify (AES_decrypt P ciphertext key iv).

(** The bytes a blob decodes to. *)
Definition decoded_bytes (ciphertextBase64 : jsstring) : list byte :=
  sig_bytes (Base64_parse ciphertextBase64).

(** A clock reading of [Date.now()]: an integer of magnitude at most
    8.64e15 (the range of time values). *)
Definition time_value (now : Z) : Prop := (Z.abs now <= 8640000000000000)%Z.

(** A string literal of this file as a JavaScript string. *)
Definition ascii (s : String.string) : jsstring :=
  of_bytes (String.list_byte_of_string s).

(** A platform to evaluate examples on: a current engine.  Its answers
    on the inputs the embedding leaves open are placeholders; no example
    reaches them. *)
Definition sample_platform : Platform :=
  {| well_formed_stringify := true;
     nonstd_encrypt_block := fun _ block => block;
     nonstd_decrypt_block := fun _ block => block;
     float_truthy := fun _ => true;
     stale_coerced := fun _ _ => false |}.

(** The same with the [JSON.stringify] of engines before ECMAScript 2019. *)
Definition legacy_platform : Platform :=
  {| well_formed_stringify := false;
     nonstd_encrypt_block := fun _ block => block;
     nonstd_decrypt_block := fun _ block => block;
     float_truthy := fun _ => true;
     stale_coerced := fun _ _ => false |}.

(** Sixteen bytes standing for a draw of [WordArray.random(16)]. *)
Definition sample_iv : list byte :=
  map (fun n => byte_of_N (N.of_nat n)) (seq 100 16).

Definition other_iv : list byte :=
  map (fun n => byte_of_N (N.of_nat n)) (seq 7 16).

End Codec.

(* ================================================================== *)
(** ** The wire format, as any party may build or alter it *)

Module Wire.
Import Bytes JsString Js CryptoJS Cipher Codec.
Local Open Scope N_scope.

(** The characters of Base64 text: the alphabet and the padding [=]. *)
Definition is_b64_char (c : N) : bool :=
  ((65 <=? c) && (c <=? 90)) || ((97 <=? c) && (c <=? 122))
  || ((48 <=? c) && (c <=? 57)) || (c =? 43) || (c =? 47) || (c =? 61).

(** A character of a blob as [Base64.parse] takes it: one that is not
    Base64 text counts as [A]. *)
Definition as_read (c : N) : N := if is_b64_char c then c else 65.

(** A blob in the format of [encryptWithDynamicIV] for the UTF-8 bytes
    [plain] of any text, made with the key bytes [kb] and the IV [iv]. *)
Definition wire_blob (P : Platform) (iv kb plain : list byte) : jsstring :=
  b64_encode (iv ++ cbc_encrypt (block_encrypt P (Latin1_parse kb))
                                (length (Pkcs7_pad plain) / 16) iv (Pkcs7_pad plain)).

(** A blob with [mask] x-ored into its first bytes (into the IV, for a
    mask of at most 16 bytes). *)
Definition xor_into_iv (mask : list byte) (blob : jsstring) : jsstring :=
  b64_encode (xor_bytes (decoded_bytes blob) mask).

(** The mask that flips the lowest bit of the third byte. *)
Definition third_byte_low_bit : list byte := [x00; x00; x01].

(** The length of Base64 text for [n] bytes. *)
Definition b64_length (n : nat) : nat := (4 * ((n + 2) / 3))%nat.

(** A string that does not start with a low surrogate. *)
Definition not_low_head (s : jsstring) : Prop :=
  match s with
  | [] => True
  | c :: _ => is_low_surrogate c = false
  end.

End Wire.

(* ================================================================== *)
(** * Properties *)

(** ** Bytes *)

Module BytesFacts.
Import Bytes.

Lemma bxor_involutive a b : bxor (bxor a b) b = a.
Proof.
  unfold bxor. rewrite Byte.to_bits_of_bits.
  rewrite <- (Byte.of_bits_to_bits a) at 2.
  destruct (Byte.to_bits a) as (a0 & a1 & a2 & a3 & a4 & a5 & a6 & a7).
  destruct (Byte.to_bits b) as (b0 & b1 & b2 & b3 & b4 & b5 & b6 & b7).
  cbn [bits_xor]. f_equal.
  repeat (f_equal; [ now rewrite xorb_assoc, xorb_nilpotent, xorb_false_r | ]).
  now rewrite xorb_assoc, xorb_nilpotent, xorb_false_r.
Qed.

Lemma bxor_comm a b : bxor a b = bxor b a.
Proof.
  unfold bxor.
  destruct (Byte.to_bits a) as (a0 & a1 & a2 & a3 & a4 & a5 & a6 & a7).
  destruct (Byte.to_bits b) as (b0 & b1 & b2 & b3 & b4 & b5 & b6 & b7).
  cbn [bits_xor]. f_equal.
  repeat (f_equal; [ apply xorb_comm | ]). apply xorb_comm.
Qed.

Lemma bxor_zero_r a : bxor a x00 = a.
Proof. destruct a; reflexivity. Qed.

Lemma byte_of_N_to_N b : byte_of_N (Byte.to_N b) = b.
Proof.
  unfold byte_of_N.
  assert (H : (Byte.to_N b mod 256 = Byte.to_N b)%N).
  { apply N.mod_small. pose proof (Byte.to_N_bounded b). lia. }
  rewrite H, Byte.of_to_N. reflexivity.
Qed.

Lemma to_N_byte_of_N n : (n < 256)%N -> Byte.to_N (byte_of_N n) = n.
Proof.
  intros H. unfold byte_of_N. rewrite N.mod_small by exact H.
  destruct (Byte.of_N n) eqn:E.
  - now apply Byte.to_of_N.
  - apply Byte.of_N_None_iff in E. lia.
Qed.

Lemma xor_bytes_length a b : length (xor_bytes a b) = length a.
Proof.
  revert b. induction a as [|x a IH]; intros [|y b]; cbn; auto.
Qed.

Lemma xor_bytes_involutive a b :
  length a = length b -> xor_bytes (xor_bytes a b) b = a.
Proof.
  revert b. induction a as [|x a IH]; intros [|y b] H; cbn in *; try discriminate; auto.
  rewrite bxor_involutive, IH; auto.
Qed.

Lemma take_pad_length n l : length (take_pad n l) = n.
Proof.
  revert l. induction n as [|n IH]; intros [|x l]; cbn; auto.
Qed.

Lemma take_pad_exact l : take_pad (length l) l = l.
Proof. induction l; cbn; congruence. Qed.

Lemma take_pad_app n l l' : length l = n -> take_pad n (l ++ l') = l.
Proof.
  revert l. induction n as [|n IH]; intros [|x l] H; cbn in *; try discriminate; auto.
  rewrite IH; auto.
Qed.

End BytesFacts.

(** ** AES: the inverse cipher undoes the cipher *)

Module AESFacts.
Import Bytes AES BytesFacts.

Ltac byte_bits a :=
  let bs := fresh "bs" in
  let H := fresh "H" in
  generalize (Byte.of_bits_to_bits a); generalize (Byte.to_bits a);
  intros bs H; subst a;
  destruct bs as (? & ? & ? & ? & ? & ? & ? & ?).

Ltac bits_eval :=
  unfold gmul2, gmul3, gmul9, gmul11, gmul13, gmul14, xtime, bxor;
  repeat (rewrite Byte.to_bits_of_bits; cbv beta iota zeta delta [bits_xor]).

Ltac bits_solve := bits_eval; repeat f_equal; btauto.

Lemma inv_sbox_sbox b : inv_sbox (sbox b) = b.
Proof. destruct b; reflexivity. Qed.

Lemma inv_sub_bytes_sub_bytes s : inv_sub_bytes (sub_bytes s) = s.
Proof.
  unfold inv_sub_bytes, sub_bytes. rewrite map_map.
  induction s as [|b s IH]; cbn [map]; [reflexivity|].
  now rewrite inv_sbox_sbox, IH.
Qed.

Lemma sub_bytes_length s : length (sub_bytes s) = length s.
Proof. apply length_map. Qed.

Ltac list16 s H :=
  do 16 (destruct s as [|? s]; [discriminate H|]);
  destruct s; [|discriminate H].

Lemma inv_shift_rows_shift_rows s :
  length s = 16 -> inv_shift_rows (shift_rows s) = s.
Proof. intros H. list16 s H. reflexivity. Qed.

Lemma shift_rows_length s : length (shift_rows s) = length s.
Proof.
  do 16 (destruct s as [|? s]; [reflexivity|]).
  destruct s; reflexivity.
Qed.

Lemma inv_mix_column_mix_column a b c d s :
  inv_mix_columns (mix_column a b c d ++ s) = [a; b; c; d] ++ inv_mix_columns s.
Proof.
  cbv beta iota delta [mix_column app inv_mix_columns inv_mix_column].
  fold inv_mix_columns.
  byte_bits a; byte_bits b; byte_bits c; byte_bits d.
  repeat match goal with |- _ :: _ = _ :: _ => f_equal end; bits_solve.
Qed.

Lemma inv_mix_columns_mix_columns s :
  length s = 16 -> inv_mix_columns (mix_columns s) = s.
Proof.
  intros H. list16 s H.
  cbn [mix_columns].
  rewrite !inv_mix_column_mix_column. reflexivity.
Qed.

Lemma mix_columns_length s : length s = 16 -> length (mix_columns s) = 16.
Proof. intros H. list16 s H. reflexivity. Qed.

Lemma add_round_key_involutive rk s :
  length rk = length s -> add_round_key rk (add_round_key rk s) = s.
Proof. intros H. unfold add_round_key. now apply xor_bytes_involutive. Qed.

Lemma add_round_key_length rk s : length (add_round_key rk s) = length s.
Proof. apply xor_bytes_length. Qed.

Lemma inv_round_round rk s :
  length s = 16 -> length rk = 16 -> inv_round rk (round rk s) = s.
Proof.
  intros Hs Hk. unfold inv_round, round.
  rewrite add_round_key_involutive.
  - rewrite inv_mix_columns_mix_columns, inv_shift_rows_shift_rows,
      inv_sub_bytes_sub_bytes; auto;
      rewrite ?shift_rows_length, ?sub_bytes_length; auto.
  - rewrite mix_columns_length; rewrite ?shift_rows_length, ?sub_bytes_length; congruence.
Qed.

Lemma inv_final_round_final_round rk s :
  length s = 16 -> length rk = 16 -> inv_final_round rk (final_round rk s) = s.
Proof.
  intros Hs Hk. unfold inv_final_round, final_round.
  rewrite add_round_key_involutive.
  - rewrite inv_shift_rows_shift_rows, inv_sub_bytes_sub_bytes; auto.
    now rewrite sub_bytes_length.
  - rewrite shift_rows_length, sub_bytes_length. congruence.
Qed.

Lemma round_length rk s : length s = 16 -> length (round rk s) = 16.
Proof.
  intros H. unfold round.
  rewrite add_round_key_length, mix_columns_length; auto.
  now rewrite shift_rows_length, sub_bytes_length.
Qed.

Lemma final_round_length rk s : length (final_round rk s) = length s.
Proof.
  unfold final_round.
  now rewrite add_round_key_length, shift_rows_length, sub_bytes_length.
Qed.

Lemma inv_rounds_rounds rks s :
  length s = 16 -> Forall (fun rk => length rk = 16) rks ->
  inv_rounds rks (rounds rks s) = s.
Proof.
  intros Hs Hk. revert s Hs.
  induction Hk as [|rk rks Hrk Hrks IH]; intros s Hs; [reflexivity|].
  destruct rks as [|rk' rks'].
  - cbn. now apply inv_final_round_final_round.
  - change (inv_round rk (inv_rounds (rk' :: rks') (rounds (rk' :: rks') (round rk s))) = s).
    rewrite IH by now apply round_length.
    now apply inv_round_round.
Qed.

Lemma rounds_length rks s : length s = 16 -> length (rounds rks s) = 16.
Proof.
  revert s. induction rks as [|rk rks IH]; intros s Hs; [exact Hs|].
  destruct rks as [|rk' rks'].
  - cbn [rounds]. now rewrite final_round_length.
  - change (length (rounds (rk' :: rks') (round rk s)) = 16).
    apply IH. now apply round_length.
Qed.

Lemma inv_cipher_cipher rks s :
  length s = 16 -> Forall (fun rk => length rk = 16) rks ->
  inv_cipher rks (cipher rks s) = s.
Proof.
  intros Hs Hk. destruct Hk as [|rk0 rks Hrk0 Hrks]; [reflexivity|].
  cbn [inv_cipher cipher].
  rewrite inv_rounds_rounds; auto.
  - apply add_round_key_involutive. congruence.
  - now rewrite add_round_key_length.
Qed.

Lemma cipher_length rks s : length s = 16 -> length (cipher rks s) = 16.
Proof.
  intros Hs. destruct rks as [|rk0 rks]; [exact Hs|].
  cbn [cipher]. apply rounds_length. now rewrite add_round_key_length.
Qed.

Lemma nth_word_length i ws :
  Forall (fun w => length w = 4) ws -> length (nth_word i ws) = 4.
Proof.
  intros H. unfold nth_word. revert i.
  induction H as [|w ws Hw Hws IH]; intros [|i]; cbn; auto.
Qed.

Lemma expand_from_words Nk i fuel ws :
  Forall (fun w => length w = 4) ws ->
  Forall (fun w => length w = 4) (expand_from Nk i fuel ws).
Proof.
  revert i ws. induction fuel as [|fuel IH]; intros i ws H; cbn; [exact H|].
  apply IH. apply Forall_app. split; [exact H|].
  constructor; [|constructor].
  unfold next_word. rewrite xor_bytes_length. now apply nth_word_length.
Qed.

Lemma chunks4_words n l : Forall (fun w => length w = 4) (chunks4 n l).
Proof.
  revert l. induction n as [|n IH]; intros l; cbn [chunks4]; constructor.
  - apply take_pad_length.
  - apply IH.
Qed.

Lemma group4_blocks ws :
  Forall (fun w => length w = 4) ws ->
  Forall (fun rk => length rk = 16) (group4 ws).
Proof.
  assert (G : forall n ws, length ws <= n ->
            Forall (fun w => length w = 4) ws ->
            Forall (fun rk => length rk = 16) (group4 ws)).
  { induction n as [|n IH]; intros l Hn H.
    - destruct l; [constructor | cbn in Hn; lia].
    - destruct H as [|a l Ha H]; [constructor|].
      destruct H as [|b l Hb H]; [constructor|].
      destruct H as [|c l Hc H]; [constructor|].
      destruct H as [|d l Hd H]; [constructor|].
      cbn [group4]. constructor.
      + rewrite !length_app. lia.
      + apply IH; [cbn in Hn; lia | exact H]. }
  intros H. now apply (G (length ws)).
Qed.

Lemma round_keys_blocks Nk key :
  Forall (fun rk => length rk = 16) (round_keys Nk key).
Proof.
  unfold round_keys. apply group4_blocks, expand_from_words, chunks4_words.
Qed.

Lemma encrypt_block_length Nk key block : length (encrypt_block Nk key block) = 16.
Proof. unfold encrypt_block. apply cipher_length, take_pad_length. Qed.

(** AES decryption of a block undoes its encryption, for every key. *)
Lemma decrypt_block_encrypt_block Nk key block :
  length block = 16 ->
  decrypt_block Nk key (encrypt_block Nk key block) = block.
Proof.
  intros H. unfold decrypt_block.
  rewrite <- (encrypt_block_length Nk key block) at 1.
  rewrite take_pad_exact. unfold encrypt_block.
  rewrite inv_cipher_cipher.
  - rewrite <- H. apply take_pad_exact.
  - apply take_pad_length.
  - apply round_keys_blocks.
Qed.

End AESFacts.

(** ** UTF-8: decoding undoes encoding *)

Module JsStringFacts.
Import Bytes BytesFacts JsString.
Local Open Scope N_scope.

#[local] Ltac Zify.zify_post_hook ::= Z.to_euclidean_division_equations.

Lemma wf_stringb_sound s : wf_stringb s = true -> wf_string s.
Proof.
  unfold wf_stringb, wf_string. rewrite forallb_forall, Forall_forall.
  intros H c Hc. apply N.ltb_lt. now apply H.
Qed.

Ltac n2b :=
  repeat match goal with
  | H : (_ <? _) = true |- _ => apply N.ltb_lt in H
  | H : (_ <? _) = false |- _ => apply N.ltb_ge in H
  | H : (_ <=? _) = true |- _ => apply N.leb_le in H
  | H : (_ <=? _) = false |- _ => apply N.leb_gt in H
  | H : (_ && _) = true |- _ => apply andb_true_iff in H; destruct H
  | H : (_ && _) = false |- _ => apply andb_false_iff in H; destruct H
  end.

Ltac cmp :=
  repeat match goal with
  | |- context [?a <? ?b] =>
      first [ replace (a <? b) with true by (symmetry; apply N.ltb_lt; lia)
            | replace (a <? b) with false by (symmetry; apply N.ltb_ge; lia) ]
  | |- context [?a <=? ?b] =>
      first [ replace (a <=? b) with true by (symmetry; apply N.leb_le; lia)
            | replace (a <=? b) with false by (symmetry; apply N.leb_gt; lia) ]
  end; cbn [andb negb].

Lemma utf8_decode_code_point cp bs :
  is_scalar cp ->
  utf8_decode (utf8_of_code_point cp ++ bs)
  = option_map (app (utf16_of_code_point cp)) (utf8_decode bs).
Proof.
  intros [Hlt Hns]. unfold utf8_of_code_point, utf16_of_code_point.
  destruct (cp <? 128) eqn:E1; [|destruct (cp <? 2048) eqn:E2; [|destruct (cp <? 65536) eqn:E3]];
    n2b; cbn [app utf8_decode]; unfold is_continuation;
    rewrite !to_N_byte_of_N by lia; cmp.
  - destruct (utf8_decode bs); reflexivity.
  - replace ((192 + cp / 64 - 192) * 64 + (128 + cp mod 64 - 128)) with cp by lia.
    destruct (utf8_decode bs); reflexivity.
  - replace ((224 + cp / 4096 - 224) * 4096 + (128 + (cp / 64) mod 64 - 128) * 64
             + (128 + cp mod 64 - 128)) with cp by lia.
    destruct (55296 <=? cp) eqn:Ea, (cp <=? 57343) eqn:Eb; n2b; try lia;
      cbn [andb negb]; destruct (utf8_decode bs); reflexivity.
  - replace ((240 + cp / 262144 - 240) * 262144 + (128 + (cp / 4096) mod 64 - 128) * 4096
             + (128 + (cp / 64) mod 64 - 128) * 64 + (128 + cp mod 64 - 128)) with cp by lia.
    cmp. unfold utf16_of_code_point. cmp. reflexivity.
Qed.

Lemma utf8_decode_encode_aux n : forall s bs,
  (length s <= n)%nat -> wf_string s ->
  utf8_encode s = Some bs -> utf8_decode bs = Some s.
Proof.
  induction n as [|n IH]; intros s bs Hn Hwf He.
  - destruct s; [|cbn in Hn; lia]. cbn in He. now inversion He.
  - destruct s as [|c s]; [cbn in He; now inversion He|].
    inversion Hwf as [|? ? Hc Hwf']; subst.
    cbn [utf8_encode] in He.
    destruct (is_low_surrogate c) eqn:El; [discriminate|].
    destruct (is_high_surrogate c) eqn:Eh.
    + destruct s as [|c2 s]; [discriminate|].
      destruct (is_low_surrogate c2) eqn:El2; [|discriminate].
      destruct (utf8_encode s) as [bs'|] eqn:Es; [|discriminate].
      inversion He; subst bs.
      inversion Hwf' as [|? ? Hc2 Hwf'']; subst.
      clear El. unfold is_high_surrogate, is_low_surrogate in *. n2b.
      assert (Hsc : is_scalar ((c - 55296) * 1024 + (c2 - 56320) + 65536)).
      { unfold is_scalar. lia. }
      rewrite utf8_decode_code_point by exact Hsc.
      assert (Hlen : (length s <= n)%nat). { cbn [length] in Hn. clear - Hn. lia. }
      rewrite (IH s bs' Hlen Hwf'' Es).
      unfold utf16_of_code_point.
      replace ((c - 55296) * 1024 + (c2 - 56320) + 65536 <? 65536) with false
        by (symmetry; apply N.ltb_ge; lia).
      cbn [option_map app].
      f_equal. f_equal; [lia|]. f_equal. lia.
    + destruct (utf8_encode s) as [bs'|] eqn:Es; [|discriminate].
      inversion He; subst bs.
      unfold is_high_surrogate, is_low_surrogate in *.
      rewrite utf8_decode_code_point.
      * assert (Hlen : (length s <= n)%nat) by (cbn [length] in Hn; clear - Hn; lia).
        rewrite (IH s bs' Hlen Hwf' Es).
        unfold utf16_of_code_point. cmp. reflexivity.
      * unfold is_scalar. n2b; lia.
Qed.

(** Strictly decoding the UTF-8 encoding of a string gives the string back. *)
Lemma utf8_decode_encode s bs :
  wf_string s -> utf8_encode s = Some bs -> utf8_decode bs = Some s.
Proof. apply (utf8_decode_encode_aux (n := length s)). lia. Qed.

End JsStringFacts.

(** ** Base64: parsing undoes stringifying *)

Module Base64Facts.
Import Bytes BytesFacts JsString CryptoJS.
Local Open Scope N_scope.

#[local] Ltac Zify.zify_post_hook ::= Z.to_euclidean_division_equations.

(** Decide every comparison of the goal by linear arithmetic. *)
Ltac decide_cmp :=
  repeat match goal with
  | |- context [?a <? ?b] =>
      first [ replace (a <? b) with true by (symmetry; apply N.ltb_lt; lia)
            | replace (a <? b) with false by (symmetry; apply N.ltb_ge; lia) ]
  | |- context [?a <=? ?b] =>
      first [ replace (a <=? b) with true by (symmetry; apply N.leb_le; lia)
            | replace (a <=? b) with false by (symmetry; apply N.leb_gt; lia) ]
  | |- context [?a =? ?b] =>
      first [ replace (a =? b) with true by (symmetry; apply N.eqb_eq; lia)
            | replace (a =? b) with false by (symmetry; apply N.eqb_neq; lia) ]
  end; cbn [andb orb negb].

Lemma b64_char_cases n :
  n < 64 ->
  (n < 26 /\ b64_char n = 65 + n) \/ (26 <= n < 52 /\ b64_char n = 71 + n)
  \/ (52 <= n < 62 /\ b64_char n = n - 4) \/ (n = 62 /\ b64_char n = 43)
  \/ (n = 63 /\ b64_char n = 47).
Proof.
  intros H. unfold b64_char.
  destruct (N.ltb_spec n 26); [left; split; [lia | reflexivity]|].
  destruct (N.ltb_spec n 52); [right; left; split; [lia | reflexivity]|].
  destruct (N.ltb_spec n 62); [right; right; left; split; [lia | reflexivity]|].
  destruct (N.eqb_spec n 62); [right; right; right; left; split; [lia | reflexivity]|].
  right; right; right; right. split; [lia | reflexivity].
Qed.

Lemma b64_value_char n : n < 64 -> b64_value (b64_char n) = n.
Proof.
  intros H.
  destruct (b64_char_cases H) as [[? E]|[[? E]|[[? E]|[[? E]|[? E]]]]];
    rewrite E; unfold b64_value; decide_cmp; lia.
Qed.

Lemma b64_char_not_pad n : n < 64 -> (b64_char n =? 61) = false.
Proof.
  intros H. apply N.eqb_neq.
  destruct (b64_char_cases H) as [[? E]|[[? E]|[[? E]|[[? E]|[? E]]]]];
    rewrite E; lia.
Qed.

Lemma byte_of_N_high k b : byte_of_N (k * 256 + Byte.to_N b) = b.
Proof.
  rewrite <- (byte_of_N_to_N b) at 2. unfold byte_of_N.
  replace ((k * 256 + Byte.to_N b) mod 256) with (Byte.to_N b mod 256); [reflexivity|].
  pose proof (Byte.to_N_bounded b). lia.
Qed.

Lemma byte_of_N_eq n b : n mod 256 = Byte.to_N b -> byte_of_N n = b.
Proof.
  intros H. rewrite <- (byte_of_N_to_N b). unfold byte_of_N.
  rewrite H. pose proof (Byte.to_N_bounded b).
  now rewrite (N.mod_small (Byte.to_N b)) by lia.
Qed.

Ltac b64_step :=
  rewrite !b64_value_char by lia;
  repeat match goal with
  | |- _ :: _ = _ :: _ => f_equal
  | |- byte_of_N _ = _ => apply byte_of_N_eq; lia
  end.

Lemma b64_decode_encode_aux n : forall bs,
  (length bs <= n)%nat -> b64_decode (before_padding (b64_encode bs)) = bs.
Proof.
  induction n as [|n IH]; intros bs Hn.
  - destruct bs; [reflexivity | cbn in Hn; lia].
  - destruct bs as [|a [|b [|c rest]]]; [reflexivity| | |].
    + pose proof (Byte.to_N_bounded a).
      cbn [b64_encode before_padding].
      rewrite !b64_char_not_pad by lia. cbn [before_padding N.eqb Pos.eqb b64_decode].
      b64_step.
    + pose proof (Byte.to_N_bounded a). pose proof (Byte.to_N_bounded b).
      cbn [b64_encode before_padding].
      rewrite !b64_char_not_pad by lia. cbn [before_padding N.eqb Pos.eqb b64_decode].
      b64_step.
    + pose proof (Byte.to_N_bounded a). pose proof (Byte.to_N_bounded b).
      pose proof (Byte.to_N_bounded c).
      cbn [b64_encode before_padding].
      rewrite !b64_char_not_pad by lia. cbn [b64_decode].
      rewrite IH by (cbn [length] in Hn; lia).
      b64_step.
Qed.

Lemma b64_decode_encode bs : b64_decode (before_padding (b64_encode bs)) = bs.
Proof. now apply (b64_decode_encode_aux (n := length bs)). Qed.

End Base64Facts.

(** ** WordArrays, padding and CBC *)

Module CipherFacts.
Import Bytes BytesFacts JsString Js CryptoJS Cipher AESFacts.

Lemma pad_words_aligned bs : (length bs mod 4 = 0)%nat -> pad_words bs = bs.
Proof.
  intros H. unfold pad_words. rewrite H. apply app_nil_r.
Qed.

Lemma take_pad_app_exact l l' : take_pad (length l) (l ++ l') = l.
Proof. now apply take_pad_app. Qed.

Lemma sig_bytes_Latin1_parse bs : sig_bytes (Latin1_parse bs) = bs.
Proof.
  unfold sig_bytes, Latin1_parse, pad_words. cbn [sigBytes words].
  rewrite Nat2Z.id. apply take_pad_app_exact.
Qed.

Lemma Pkcs7_pad_length data :
  length (Pkcs7_pad data) = (16 * (length data / 16 + 1))%nat.
Proof.
  unfold Pkcs7_pad. rewrite length_app, repeat_length.
  pose proof (Nat.div_mod_eq (length data) 16).
  pose proof (Nat.mod_upper_bound (length data) 16). lia.
Qed.

Lemma Pkcs7_pad_last data :
  nth (length (Pkcs7_pad data) - 1) (Pkcs7_pad data) x00
  = byte_of_N (N.of_nat (16 - length data mod 16)).
Proof.
  pose proof (Nat.mod_upper_bound (length data) 16).
  unfold Pkcs7_pad. rewrite length_app, repeat_length.
  rewrite app_nth2 by lia.
  remember (16 - length data mod 16)%nat as n.
  apply nth_repeat_lt. lia.
Qed.

Lemma block_encrypt_length P key block : length (block_encrypt P key block) = 16%nat.
Proof.
  unfold block_encrypt.
  repeat match goal with |- context [if ?b then _ else _] => destruct b end;
    auto using encrypt_block_length, take_pad_length.
Qed.

Lemma block_decrypt_encrypt P key block :
  standard_key key -> length block = 16%nat ->
  block_decrypt P key (block_encrypt P key block) = block.
Proof.
  intros Hk Hb. unfold block_decrypt, block_encrypt.
  destruct Hk as [E|[E|E]]; rewrite E;
    cbv beta iota delta [Z.eqb Pos.eqb];
    now apply decrypt_block_encrypt_block.
Qed.

Lemma skipn_exact_app (l l' : list byte) n :
  length l = n -> skipn n (l ++ l') = l'.
Proof.
  intros H. subst n. rewrite skipn_app, skipn_all, Nat.sub_diag. reflexivity.
Qed.

Lemma firstn_exact_app (l l' : list byte) n :
  length l = n -> firstn n (l ++ l') = l.
Proof.
  intros H. subst n. rewrite firstn_app, firstn_all, Nat.sub_diag. cbn [firstn].
  apply app_nil_r.
Qed.

Section CBC.
Variables E D : list byte -> list byte.
Hypothesis E_length : forall b, length (E b) = 16%nat.
Hypothesis D_E : forall b, length b = 16%nat -> D (E b) = b.

Lemma cbc_encrypt_length n prev data :
  length (cbc_encrypt E n prev data) = (16 * n)%nat.
Proof.
  revert prev data. induction n as [|n IH]; intros prev data; [reflexivity|].
  cbn [cbc_encrypt]. rewrite length_app, E_length, IH. lia.
Qed.

Lemma cbc_decrypt_encrypt n : forall prev data,
  length prev = 16%nat -> length data = (16 * n)%nat ->
  cbc_decrypt D n prev (cbc_encrypt E n prev data) = data.
Proof.
  induction n as [|n IH]; intros prev data Hp Hd.
  - destruct data; [reflexivity | discriminate].
  - cbn [cbc_encrypt cbc_decrypt].
    set (c := E (xor_bytes (take_pad 16 data) prev)).
    assert (Hc : length c = 16%nat) by apply E_length.
    rewrite (take_pad_app c _ Hc), (skipn_exact_app c _ Hc).
    rewrite IH; [| exact Hc | rewrite length_skipn; lia].
    unfold c. rewrite D_E.
    + rewrite xor_bytes_involutive.
      * rewrite <- (firstn_skipn 16 data) at 3. f_equal.
        rewrite <- (firstn_skipn 16 data) at 1.
        apply take_pad_app. rewrite length_firstn. lia.
      * rewrite take_pad_length. now rewrite Hp.
    + rewrite xor_bytes_length. apply take_pad_length.
Qed.
End CBC.

End CipherFacts.

(** ** JSON: parsing the stringified payload gives its fields back *)

Module JSONFacts.
Import Bytes BytesFacts JsString Js JSON Base64Facts.
Local Open Scope N_scope.

#[local] Ltac Zify.zify_post_hook ::= Z.to_euclidean_division_equations.

Lemma fold_units_pos d : forall p,
  fold_left (fun acc d => acc * 10 + (d - 48)) (uint_units d) (Npos p)
  = Npos (Pos.of_uint_acc d p).
Proof.
  induction d; intros p; cbn [uint_units fold_left Pos.of_uint_acc];
    [reflexivity | rewrite <- IHd; f_equal; lia ..].
Qed.

Lemma digits_value_units d : digits_value (uint_units d) = Pos.of_uint d.
Proof.
  unfold digits_value.
  induction d; cbn [uint_units fold_left Pos.of_uint];
    [reflexivity | exact IHd | rewrite <- fold_units_pos; f_equal ..].
Qed.

Lemma digits_units d rest :
  not_digit_first rest -> digits (uint_units d ++ rest) = (uint_units d, rest).
Proof.
  intros H. induction d; cbn [uint_units app digits];
    [| change (is_digit _) with true; cbn iota; rewrite IHd; reflexivity ..].
  destruct rest as [|c rest]; [reflexivity|]. cbn in H. cbn [digits]. now rewrite H.
Qed.

Lemma nzhead_not_D0 d d' : Decimal.nzhead d <> Decimal.D0 d'.
Proof. induction d; cbn; try discriminate; auto. Qed.

Lemma to_uint_normal p : Decimal.unorm (Pos.to_uint p) = Pos.to_uint p.
Proof.
  rewrite <- (DecimalPos.Unsigned.to_of (Pos.to_uint p)).
  rewrite DecimalPos.Unsigned.of_to. reflexivity.
Qed.

(** The digits of a positive number start with a digit that is not 0. *)
Lemma units_to_uint_head p :
  exists c more, uint_units (Pos.to_uint p) = c :: more /\ is_digit c = true /\ c <> 48.
Proof.
  pose proof (to_uint_normal p) as Hn.
  pose proof (DecimalPos.Unsigned.to_uint_nonzero p) as Hz.
  destruct (Pos.to_uint p) as [|d|d|d|d|d|d|d|d|d|d] eqn:E;
    try (cbn [uint_units]; eexists; eexists; split; [reflexivity|]; split; [reflexivity | lia]).
  - exfalso. cbn in Hn. discriminate.
  - exfalso. unfold Decimal.unorm in Hn. cbn [Decimal.nzhead] in Hn.
    destruct (Decimal.nzhead d) eqn:En;
      [ apply Hz; now rewrite <- Hn | now apply nzhead_not_D0 in En | discriminate Hn .. ].
Qed.

Lemma parse_number_integer t r :
  (Z.abs t <= max_safe)%Z ->
  parse_number (number_to_string t ++ 44 :: r) = Some (JNum t, 44 :: r).
Proof.
  intros Ht. unfold number_to_string.
  destruct t as [|p|p]; cbn [Z.to_int].
  - reflexivity.
  - destruct (units_to_uint_head p) as (c & more & E & Hd & Hc).
    unfold parse_number. rewrite E. cbn [app].
    replace (c =? 45) with false
      by (symmetry; apply N.eqb_neq; unfold is_digit in Hd;
          apply andb_true_iff in Hd; destruct Hd as [H1 H2];
          apply N.leb_le in H1, H2; lia).
    change (c :: more ++ 44 :: r) with ((c :: more) ++ 44 :: r).
    rewrite <- E. rewrite digits_units by reflexivity.
    rewrite E. replace (c =? 48) with false by (symmetry; now apply N.eqb_neq).
    cbn [andb]. change (44 =? 46) with false. cbn iota.
    change ((44 =? 101) || (44 =? 69)) with false. cbn iota.
    rewrite <- E, digits_value_units, DecimalPos.Unsigned.of_to.
    rewrite E. cbn [app]. 
    change (Z.of_N (N.pos p)) with (Z.pos p).
    replace (Z.pos p <=? max_safe)%Z with true by (symmetry; apply Z.leb_le; lia).
    reflexivity.
  - destruct (units_to_uint_head p) as (c & more & E & Hd & Hc).
    unfold parse_number. cbn [app]. change (45 =? 45) with true. cbn iota.
    rewrite digits_units by reflexivity.
    rewrite E. replace (c =? 48) with false by (symmetry; now apply N.eqb_neq).
    cbn [andb]. change (44 =? 46) with false. cbn iota.
    change ((44 =? 101) || (44 =? 69)) with false. cbn iota.
    rewrite <- E, digits_value_units, DecimalPos.Unsigned.of_to.
    rewrite E. cbn [app andb].
    change (Z.of_N (N.pos p)) with (Z.pos p).
    change (Z.pos p =? 0)%Z with false. cbn iota.
    replace (Z.pos p <=? max_safe)%Z with true by (symmetry; apply Z.leb_le; lia).
    reflexivity.
Qed.

Lemma hex_value_digit n : n < 16 -> hex_value (hex_digit n) = Some n.
Proof.
  intros H. unfold hex_digit, hex_value.
  destruct (N.ltb_spec n 10); decide_cmp; f_equal; lia.
Qed.

Lemma parse_string_body_escape c s :
  c < 65536 ->
  parse_string_body (unicode_escape c ++ s) = cons_unit c (parse_string_body s).
Proof.
  intros H. unfold unicode_escape. cbn [app parse_string_body].
  change (92 =? 34) with false. change (92 =? 92) with true.
  change (117 =? 117) with true. cbn iota.
  rewrite !hex_value_digit by lia.
  replace ((c / 4096) mod 16 * 4096 + (c / 256) mod 16 * 256 + (c / 16) mod 16 * 16 + c mod 16)
    with c by lia.
  reflexivity.
Qed.

Lemma parse_string_body_raw c s :
  32 <= c -> c <> 34 -> c <> 92 ->
  parse_string_body (c :: s) = cons_unit c (parse_string_body s).
Proof.
  intros H1 H2 H3. cbn [parse_string_body]. decide_cmp. reflexivity.
Qed.

Lemma parse_string_body_unit c s :
  c < 65536 ->
  parse_string_body (quote_unit c ++ s) = cons_unit c (parse_string_body s).
Proof.
  intros H. unfold quote_unit.
  destruct (N.eqb_spec c 34); [subst; reflexivity|].
  destruct (N.eqb_spec c 92); [subst; reflexivity|].
  destruct (N.eqb_spec c 8); [subst; reflexivity|].
  destruct (N.eqb_spec c 12); [subst; reflexivity|].
  destruct (N.eqb_spec c 10); [subst; reflexivity|].
  destruct (N.eqb_spec c 13); [subst; reflexivity|].
  destruct (N.eqb_spec c 9); [subst; reflexivity|].
  destruct (N.ltb_spec c 32).
  - now apply parse_string_body_escape.
  - now apply parse_string_body_raw.
Qed.

Lemma parse_string_body_lone wf c s :
  c < 65536 -> 55296 <= c ->
  parse_string_body (quote_lone wf c ++ s) = cons_unit c (parse_string_body s).
Proof.
  intros H1 H2. destruct wf; cbn [quote_lone].
  - now apply parse_string_body_escape.
  - apply parse_string_body_raw; lia.
Qed.

Lemma parse_string_body_quote_aux wf rest n : forall v,
  (length v <= n)%nat -> wf_string v ->
  parse_string_body (quote_body wf v ++ 34 :: rest) = Some (v, rest).
Proof.
  induction n as [|n IH]; intros v Hn Hwf.
  - destruct v; [reflexivity | cbn in Hn; lia].
  - destruct v as [|c v]; [reflexivity|].
    inversion Hwf as [|? ? Hc Hwf']; subst.
    assert (Hv : parse_string_body (quote_body wf v ++ 34 :: rest) = Some (v, rest))
      by (apply IH; [cbn [length] in Hn; lia | exact Hwf']).
    cbn [quote_body].
    destruct (is_high_surrogate c) eqn:Eh.
    + unfold is_high_surrogate in Eh. apply andb_true_iff in Eh.
      destruct Eh as [Eh1 Eh2]. apply N.leb_le in Eh1, Eh2.
      destruct v as [|c2 v].
      * rewrite parse_string_body_lone by lia. reflexivity.
      * destruct (is_low_surrogate c2) eqn:El.
        -- unfold is_low_surrogate in El. apply andb_true_iff in El.
           destruct El as [El1 El2]. apply N.leb_le in El1, El2.
           inversion Hwf' as [|? ? Hc2 Hwf'']; subst.
           cbn [app]. rewrite !parse_string_body_raw by lia.
           rewrite IH by (auto; cbn [length] in Hn; lia). reflexivity.
        -- rewrite <- app_assoc, parse_string_body_lone by lia.
           rewrite Hv. reflexivity.
    + destruct (is_low_surrogate c) eqn:El.
      * unfold is_low_surrogate in El. apply andb_true_iff in El.
        destruct El as [El1 El2]. apply N.leb_le in El1, El2.
        rewrite <- app_assoc, parse_string_body_lone by lia.
        rewrite Hv. reflexivity.
      * rewrite <- app_assoc, parse_string_body_unit by lia.
        rewrite Hv. reflexivity.
Qed.

Lemma parse_string_body_quote wf v rest :
  wf_string v -> parse_string_body (quote_body wf v ++ 34 :: rest) = Some (v, rest).
Proof.
  intros H. apply parse_string_body_quote_aux with (n := length v); [lia | exact H].
Qed.

Lemma parse_value_object f s :
  parse_value (S f) (123 :: 34 :: s)
  = match parse_members f (34 :: s) with
    | Some (ms, rest) => Some (JObj ms, rest)
    | None => None
    end.
Proof. reflexivity. Qed.

Lemma parse_value_string f s :
  parse_value (S f) (34 :: s)
  = match parse_string_body s with
    | Some (str, rest) => Some (JStr str, rest)
    | None => None
    end.
Proof. reflexivity. Qed.

Lemma parse_value_number f c s :
  is_digit c = true \/ c = 45 ->
  parse_value (S f) (c :: s) = parse_number (c :: s).
Proof.
  intros H.
  assert (Hc : 45 <= c <= 57).
  { destruct H as [H|H]; [|lia]. unfold is_digit in H.
    apply andb_true_iff in H. destruct H as [H1 H2]. apply N.leb_le in H1, H2. lia. }
  cbn [parse_value skip_ws]. unfold is_ws. decide_cmp. decide_cmp. reflexivity.
Qed.

Lemma number_to_string_head t :
  exists c more, number_to_string t = c :: more /\ (is_digit c = true \/ c = 45).
Proof.
  unfold number_to_string. destruct t as [|p|p]; cbn [Z.to_int].
  - exists 48, []. split; [reflexivity | now left].
  - destruct (units_to_uint_head p) as (c & more & E & Hd & _).
    exists c, more. split; [exact E | now left].
  - eexists; eexists. split; [reflexivity | now right].
Qed.

Lemma parse_members_member f k s :
  k = 116 \/ k = 118 ->
  parse_members (S f) (34 :: k :: 34 :: 58 :: s)
  = match parse_value f s with
    | Some (v, r3) =>
        match skip_ws r3 with
        | c :: r4 =>
            if c =? 44 then
              match parse_members f r4 with
              | Some (ms, rest) => Some (([k], v) :: ms, rest)
              | None => None
              end
            else if c =? 125 then Some ([([k], v)], r4)
            else None
        | [] => None
        end
    | None => None
    end.
Proof. intros [E|E]; subst k; reflexivity. Qed.

Lemma parse_value_payload wf t v f :
  (Z.abs t <= max_safe)%Z -> wf_string v ->
  parse_value (S (S (S (S f)))) (stringify_payload wf t v)
  = Some (JObj [([116], JNum t); ([118], JStr v)], []).
Proof.
  intros Ht Hv. unfold stringify_payload, quote.
  cbn [app]. rewrite parse_value_object, parse_members_member by now left.
  destruct (number_to_string_head t) as (c & more & E & Hc).
  pose proof (@parse_number_integer t
                (34 :: 118 :: 34 :: 58 :: 34 :: (quote_body wf v ++ [34]) ++ [125]) Ht) as Hn.
  rewrite E in *. cbn [app] in *.
  rewrite (@parse_value_number _ _ _ Hc), Hn.
  cbn [skip_ws is_ws N.eqb Pos.eqb orb]. cbn iota.
  rewrite parse_members_member by now right.
  rewrite parse_value_string, <- app_assoc. cbn [app].
  rewrite parse_string_body_quote by exact Hv.
  reflexivity.
Qed.

Lemma parse_payload wf t v :
  (Z.abs t <= max_safe)%Z -> wf_string v ->
  parse (stringify_payload wf t v)
  = Normal (JObj [([116], JNum t); ([118], JStr v)]).
Proof.
  intros Ht Hv. unfold parse.
  assert (E : exists f, (2 * length (stringify_payload wf t v) + 2 = S (S (S (S f))))%nat).
  { exists (2 * length (stringify_payload wf t v) - 2)%nat.
    unfold stringify_payload. cbn [app length]. lia. }
  destruct E as [f E]. rewrite E, parse_value_payload by assumption.
  reflexivity.
Qed.

End JSONFacts.

(** ** The payload is well-formed UTF-16 *)

Module PayloadFacts.
Import Bytes BytesFacts JsString Js JSON Base64Facts JSONFacts.
Local Open Scope N_scope.

#[local] Ltac Zify.zify_post_hook ::= Z.to_euclidean_division_equations.

Lemma plain_below c : c < 55296 -> plain c.
Proof.
  intros H. unfold plain, is_high_surrogate, is_low_surrogate.
  decide_cmp. split; reflexivity.
Qed.

Lemma well_formed_plain c s :
  plain c -> well_formed_utf16 (c :: s) = well_formed_utf16 s.
Proof.
  intros [Hh Hl]. unfold well_formed_utf16. cbn [utf8_encode].
  rewrite Hh, Hl. destruct (utf8_encode s); reflexivity.
Qed.

Lemma well_formed_pair c c2 s :
  is_high_surrogate c = true -> is_low_surrogate c2 = true ->
  well_formed_utf16 (c :: c2 :: s) = well_formed_utf16 s.
Proof.
  intros Hh Hl. unfold well_formed_utf16. cbn [utf8_encode].
  assert (Hl' : is_low_surrogate c = false).
  { unfold is_high_surrogate, is_low_surrogate in *.
    apply andb_true_iff in Hh. destruct Hh as [H1 H2]. apply N.leb_le in H1, H2.
    decide_cmp. reflexivity. }
  rewrite Hl', Hh, Hl. destruct (utf8_encode s); reflexivity.
Qed.

Lemma well_formed_app_plain a s :
  Forall plain a -> well_formed_utf16 (a ++ s) = well_formed_utf16 s.
Proof.
  induction 1 as [|c a Hc Ha IH]; [reflexivity|].
  cbn [app]. now rewrite well_formed_plain.
Qed.

Lemma hex_digit_bound n : n < 16 -> hex_digit n < 128.
Proof. intros H. unfold hex_digit. destruct (n <? 10); lia. Qed.

Lemma unicode_escape_ascii c : Forall (fun u => u < 128) (unicode_escape c).
Proof.
  unfold unicode_escape.
  repeat (apply Forall_cons; [first [lia | apply hex_digit_bound; lia]|]).
  apply Forall_nil.
Qed.

Lemma quote_unit_bound c : c < 55296 -> Forall (fun u => u < 55296) (quote_unit c).
Proof.
  intros H. unfold quote_unit.
  repeat match goal with |- context [if ?b then _ else _] => destruct b end;
    first [ eapply Forall_impl; [|apply unicode_escape_ascii]; cbn beta; intros; lia
          | repeat (apply Forall_cons; [lia|]); apply Forall_nil ].
Qed.

Lemma Forall_plain_below a : Forall (fun u => u < 55296) a -> Forall plain a.
Proof. apply Forall_impl. intros c. apply plain_below. Qed.

Lemma quote_lone_true_plain c : Forall plain (quote_lone true c).
Proof.
  apply Forall_plain_below. eapply Forall_impl; [|apply unicode_escape_ascii].
  cbn. intros. lia.
Qed.

Lemma not_surrogate_below c :
  c < 65536 -> is_high_surrogate c = false -> is_low_surrogate c = false ->
  c < 55296 \/ 57343 < c.
Proof.
  unfold is_high_surrogate, is_low_surrogate. intros H Hh Hl.
  apply andb_false_iff in Hh, Hl.
  destruct Hh as [Hh|Hh], Hl as [Hl|Hl];
    first [apply N.leb_gt in Hh | idtac]; first [apply N.leb_gt in Hl | idtac]; lia.
Qed.

Lemma well_formed_head c s :
  well_formed_utf16 (c :: s) = true ->
  is_low_surrogate c = false /\
  (is_high_surrogate c = false -> well_formed_utf16 s = true) /\
  (is_high_surrogate c = true ->
   exists c2 s', s = c2 :: s' /\ is_low_surrogate c2 = true /\ well_formed_utf16 s' = true).
Proof.
  unfold well_formed_utf16. cbn [utf8_encode].
  destruct (is_low_surrogate c); [discriminate|].
  destruct (is_high_surrogate c).
  - intros H. split; [reflexivity|]. split; [discriminate|]. intros _.
    destruct s as [|c2 s']; [discriminate|].
    destruct (is_low_surrogate c2) eqn:E; [|discriminate].
    exists c2, s'. repeat split; auto.
    destruct (utf8_encode s'); [reflexivity | discriminate].
  - intros H. split; [reflexivity|]. split; [|discriminate]. intros _.
    destruct (utf8_encode s); [reflexivity | discriminate].
Qed.

Lemma well_formed_quote_body_aux wf tail n : forall v,
  (length v <= n)%nat -> wf_string v ->
  wf = true \/ well_formed_utf16 v = true ->
  well_formed_utf16 tail = true ->
  well_formed_utf16 (quote_body wf v ++ tail) = true.
Proof.
  induction n as [|n IH]; intros v Hn Hwf Hv Ht.
  - destruct v; [exact Ht | cbn in Hn; lia].
  - destruct v as [|c v]; [exact Ht|].
    inversion Hwf as [|? ? Hc Hwf']; subst.
    cbn [quote_body].
    destruct (is_high_surrogate c) eqn:Eh.
    + destruct v as [|c2 v].
      * destruct Hv as [Hv|Hv].
        -- subst wf. now rewrite well_formed_app_plain by apply quote_lone_true_plain.
        -- apply well_formed_head in Hv. destruct Hv as (_ & _ & Hv).
           destruct (Hv Eh) as (? & ? & ? & _). discriminate.
      * inversion Hwf' as [|? ? Hc2 Hwf'']; subst.
        destruct (is_low_surrogate c2) eqn:El.
        -- cbn [app]. rewrite well_formed_pair by assumption.
           apply IH; auto; [cbn [length] in Hn; lia|].
           destruct Hv as [Hv|Hv]; [now left | right].
           now rewrite well_formed_pair in Hv.
        -- destruct Hv as [Hv|Hv].
           ++ subst wf. rewrite <- app_assoc.
              rewrite well_formed_app_plain by apply quote_lone_true_plain.
              apply IH; auto. cbn [length] in *. lia.
           ++ apply well_formed_head in Hv. destruct Hv as (_ & _ & Hv).
              destruct (Hv Eh) as (? & ? & Es & El' & _).
              inversion Es; subst. congruence.
    + destruct (is_low_surrogate c) eqn:El.
      * destruct Hv as [Hv|Hv].
        -- subst wf. rewrite <- app_assoc.
           rewrite well_formed_app_plain by apply quote_lone_true_plain.
           apply IH; auto. cbn [length] in *. lia.
        -- apply well_formed_head in Hv. destruct Hv as (Hv & _). congruence.
      * assert (Hv' : wf = true \/ well_formed_utf16 v = true).
        { destruct Hv as [Hv|Hv]; [now left | right].
          apply well_formed_head in Hv. destruct Hv as (_ & Hv & _). now apply Hv. }
        rewrite <- app_assoc.
        destruct (not_surrogate_below Hc Eh El) as [Hlow|Hhigh].
        -- rewrite well_formed_app_plain
             by (apply Forall_plain_below, quote_unit_bound; exact Hlow).
           apply IH; auto. cbn [length] in *. lia.
        -- unfold quote_unit. decide_cmp. cbn [app].
           rewrite well_formed_plain by (split; assumption).
           apply IH; auto. cbn [length] in *. lia.
Qed.

Lemma well_formed_quote_body wf v tail :
  wf_string v -> wf = true \/ well_formed_utf16 v = true ->
  well_formed_utf16 tail = true ->
  well_formed_utf16 (quote_body wf v ++ tail) = true.
Proof.
  intros. apply well_formed_quote_body_aux with (n := length v); auto.
Qed.

Lemma uint_units_ascii d : Forall (fun u => u < 128) (uint_units d).
Proof. induction d; cbn [uint_units]; constructor; auto; lia. Qed.

Lemma number_to_string_ascii t : Forall (fun u => u < 128) (number_to_string t).
Proof.
  unfold number_to_string. destruct (Z.to_int t).
  - apply uint_units_ascii.
  - constructor; [lia | apply uint_units_ascii].
Qed.

Lemma ascii_plain a : Forall (fun u => u < 128) a -> Forall plain a.
Proof. apply Forall_impl. intros c H. apply plain_below. lia. Qed.

Lemma ascii_wf a : Forall (fun u => u < 128) a -> wf_string a.
Proof. apply Forall_impl. intros c H. lia. Qed.

(** The stringified payload has no unpaired surrogate when
    [JSON.stringify] is well-formed or the value has none. *)
Lemma payload_well_formed wf t v :
  wf_string v -> wf = true \/ well_formed_utf16 v = true ->
  well_formed_utf16 (stringify_payload wf t v) = true.
Proof.
  intros Hv Hw. unfold stringify_payload, quote.
  rewrite well_formed_app_plain
    by (apply ascii_plain; repeat (apply Forall_cons; [lia|]); apply Forall_nil).
  rewrite well_formed_app_plain by apply ascii_plain, number_to_string_ascii.
  rewrite well_formed_app_plain
    by (apply ascii_plain; repeat (apply Forall_cons; [lia|]); apply Forall_nil).
  cbn [app]. rewrite well_formed_plain by (apply plain_below; lia).
  rewrite <- app_assoc. apply well_formed_quote_body; auto.
Qed.

Lemma quote_lone_wf wf c : c < 65536 -> wf_string (quote_lone wf c).
Proof.
  intros H. destruct wf; cbn [quote_lone].
  - apply ascii_wf, unicode_escape_ascii.
  - constructor; [exact H | constructor].
Qed.

Lemma quote_unit_wf c : c < 65536 -> wf_string (quote_unit c).
Proof.
  intros H. unfold quote_unit.
  repeat match goal with |- context [if ?b then _ else _] => destruct b end;
    first [ apply ascii_wf, unicode_escape_ascii
          | repeat (apply Forall_cons; [lia|]); apply Forall_nil ].
Qed.

Lemma quote_body_wf_aux wf n : forall v,
  (length v <= n)%nat -> wf_string v -> wf_string (quote_body wf v).
Proof.
  induction n as [|n IH]; intros v Hn Hwf.
  - destruct v; [constructor | cbn in Hn; lia].
  - destruct v as [|c v]; [constructor|].
    inversion Hwf as [|? ? Hc Hwf']; subst.
    assert (Hq : wf_string (quote_body wf v))
      by (apply IH; [cbn [length] in Hn; lia | exact Hwf']).
    cbn [quote_body].
    destruct (is_high_surrogate c).
    + destruct v as [|c2 v]; [now apply quote_lone_wf|].
      inversion Hwf' as [|? ? Hc2 Hwf'']; subst.
      destruct (is_low_surrogate c2).
      * constructor; [exact Hc|]. constructor; [exact Hc2|].
        apply IH; [cbn [length] in Hn; lia | exact Hwf''].
      * apply Forall_app. split; [now apply quote_lone_wf | exact Hq].
    + destruct (is_low_surrogate c); apply Forall_app; split;
        first [ exact Hq | now apply quote_lone_wf | now apply quote_unit_wf ].
Qed.

Lemma payload_wf_string wf t v :
  wf_string v -> wf_string (stringify_payload wf t v).
Proof.
  intros Hv. unfold stringify_payload, quote.
  repeat (apply Forall_app; split);
    try (apply ascii_wf; first [ apply number_to_string_ascii
                               | repeat (apply Forall_cons; [lia|]); apply Forall_nil ]).
  constructor; [lia|]. apply Forall_app. split.
  - now apply quote_body_wf_aux with (n := length v).
  - constructor; [lia | constructor].
Qed.

End PayloadFacts.

(** ** The codec: decrypting a fresh blob *)

Module CodecFacts.
Import Bytes BytesFacts JsString Js JSON CryptoJS Cipher Codec.
Import AESFacts JsStringFacts Base64Facts CipherFacts JSONFacts PayloadFacts.

#[local] Ltac Zify.zify_post_hook ::= Z.to_euclidean_division_equations.

Lemma Pkcs7_pad_shape data :
  exists nb n, (1 <= n <= 16)%nat /\ (length data + n = 16 * nb)%nat /\
    Pkcs7_pad data = data ++ repeat (byte_of_N (N.of_nat n)) n /\
    (length (Pkcs7_pad data) / 16 = nb)%nat.
Proof.
  exists (length data / 16 + 1)%nat, (16 - length data mod 16)%nat.
  pose proof (Nat.div_mod_eq (length data) 16) as H1.
  pose proof (Nat.mod_upper_bound (length data) 16) as H2.
  repeat split; try lia.
  rewrite Pkcs7_pad_length, Nat.mul_comm. apply Nat.div_mul. lia.
Qed.

Lemma firstn_exact (l : list byte) n : length l = n -> firstn n l = l.
Proof. intros H. apply firstn_all2. lia. Qed.

Lemma take_pad_whole (l : list byte) n : length l = n -> take_pad n l = l.
Proof. intros H. subst n. apply take_pad_exact. Qed.

Lemma AES_decrypt_encrypt_bytes P key iv pb :
  standard_key key -> length iv = 16%nat ->
  let padded := Pkcs7_pad pb in
  let ct := cbc_encrypt (block_encrypt P key) (length padded / 16) iv padded in
  sig_bytes (AES_decrypt P {| words := ct; sigBytes := Z.of_nat (length ct) |} key
                         {| words := iv; sigBytes := 16 |}) = pb.
Proof.
  intros Hk Hiv padded ct.
  destruct (Pkcs7_pad_shape pb) as (nb & n & Hn & Hlen & Hpad & Hnb).
  fold padded in Hpad, Hnb.
  assert (Hpl : length padded = (16 * nb)%nat).
  { rewrite Hpad, length_app, repeat_length. exact Hlen. }
  assert (Hct : length ct = (16 * nb)%nat).
  { unfold ct. rewrite cbc_encrypt_length by apply block_encrypt_length. lia. }
  assert (Hdec : cbc_decrypt (block_decrypt P key) nb iv ct = padded).
  { unfold ct. rewrite Hnb.
    apply (@cbc_decrypt_encrypt (block_encrypt P key) (block_decrypt P key));
      [ apply block_encrypt_length | intros; now apply block_decrypt_encrypt
      | exact Hiv | exact Hpl ]. }
  unfold AES_decrypt. cbn [sigBytes words].
  replace (Z.of_nat (length ct) <=? 0)%Z with false
    by (symmetry; apply Z.leb_gt; lia).
  replace (Z.to_nat (ceil_div (Z.of_nat (length ct)) 16)) with nb
    by (unfold ceil_div; lia).
  replace (4 * Z.to_nat (ceil_div (Z.of_nat (length ct)) 4))%nat with (16 * nb)%nat
    by (unfold ceil_div; lia).
  replace (4 * Z.to_nat ((Z.of_nat (length ct) - 1) / 4) + 3)%nat
    with (length pb + (n - 1))%nat by lia.
  rewrite (@firstn_exact _ _ Hct), (@take_pad_whole _ _ Hct), (@take_pad_whole _ _ Hiv).
  rewrite Hdec. unfold sig_bytes. cbn [sigBytes words].
  rewrite Hct, Hpad. rewrite app_nth2_plus, nth_repeat_lt by lia.
  rewrite to_N_byte_of_N by lia.
  replace (Z.to_nat (Z.of_nat (16 * nb) - Z.of_N (N.of_nat n)))
    with (length pb) by lia.
  apply take_pad_app_exact.
Qed.

Lemma Latin1_parse_aligned bs :
  (exists k, length bs = 4 * k)%nat -> Latin1_parse bs = {| words := bs; sigBytes := Z.of_nat (length bs) |}.
Proof.
  intros [k Hk]. unfold Latin1_parse. f_equal. apply pad_words_aligned.
  rewrite Hk, Nat.mul_comm. apply Nat.Div0.mod_mul.
Qed.

(** What decrypting a freshly made blob returns, for every clock reading. *)
Lemma decrypt_encrypt P now drawn value keyStr kb :
  wf_string value ->
  well_formed_stringify P = true \/ well_formed_utf16 value = true ->
  utf8_encode keyStr = Some kb -> standard_length (length kb) ->
  length drawn = 16%nat ->
  (Z.abs now <= max_safe)%Z ->
  exists blob,
    encryptWithDynamicIV P now drawn value keyStr = Normal blob /\
    forall now',
      decryptWithDynamicIV P now' blob keyStr
      = Normal (if negb (now =? 0)%Z && (60000 <? Z.abs (now' - now))%Z
                then JNull else JStr value).
Proof.
  intros Hv Hw Hk Hkl Hd Hnow.
  set (payload := stringify_payload (well_formed_stringify P) now value).
  assert (Hpw : well_formed_utf16 payload = true) by now apply payload_well_formed.
  unfold well_formed_utf16 in Hpw.
  destruct (utf8_encode payload) as [pb|] eqn:Hpb; [clear Hpw | discriminate].
  assert (Hdec : utf8_decode pb = Some payload).
  { apply utf8_decode_encode; [now apply payload_wf_string | exact Hpb]. }
  assert (Hkey : Latin1_parse kb = {| words := kb; sigBytes := Z.of_nat (length kb) |}).
  { apply Latin1_parse_aligned. destruct Hkl as [E|[E|E]]; rewrite E;
      [exists 4%nat | exists 6%nat | exists 8%nat]; reflexivity. }
  assert (Hstd : standard_key (Latin1_parse kb)).
  { rewrite Hkey. unfold standard_key. cbn [sigBytes].
    destruct Hkl as [E|[E|E]]; rewrite E; auto. }
  set (key := Latin1_parse kb) in *.
  set (padded := Pkcs7_pad pb).
  set (ct := cbc_encrypt (block_encrypt P key) (length padded / 16) drawn padded).
  assert (Hctl : exists nb, length ct = (16 * nb)%nat).
  { exists (length padded / 16)%nat. unfold ct.
    now rewrite cbc_encrypt_length by apply block_encrypt_length. }
  destruct Hctl as [nb Hctl].
  assert (Hall : Latin1_parse (drawn ++ ct)
                 = {| words := drawn ++ ct; sigBytes := Z.of_nat (length (drawn ++ ct)) |}).
  { apply Latin1_parse_aligned. exists (4 + 4 * nb)%nat. rewrite length_app. lia. }
  exists (b64_encode (drawn ++ ct)). split.
  - unfold encryptWithDynamicIV, encrypt_try, Utf8_parse, AES_encrypt, Utf8_parse.
    fold payload. rewrite Hk, Hpb. cbn [or_throw bind try_catch]. fold key.
    rewrite sig_bytes_Latin1_parse. fold padded.
    cbn [WordArray_random16 words].
    replace (take_pad 16 drawn) with drawn by (symmetry; now apply take_pad_whole).
    fold ct.
    unfold Base64_stringify, concat, sig_bytes, WordArray_random16. cbn [words sigBytes].
    rewrite Nat2Z.id, take_pad_exact.
    change (Z.to_nat 16) with 16%nat.
    replace (take_pad 16 drawn) with drawn by (symmetry; now apply take_pad_whole).
    replace (pad_words (drawn ++ ct)) with (drawn ++ ct)
      by (symmetry; apply pad_words_aligned; rewrite length_app, Hd, Hctl;
          replace (16 + 16 * nb)%nat with ((4 + 4 * nb) * 4)%nat by lia;
          apply Nat.Div0.mod_mul).
    replace (Z.to_nat (16 + Z.of_nat (length ct))) with (length (drawn ++ ct))
      by (rewrite length_app; lia).
    rewrite take_pad_exact. reflexivity.
  - intros now'. unfold decryptWithDynamicIV, decrypt_try, Base64_parse.
    rewrite b64_decode_encode, Hall. cbn [words sigBytes].
    cbv zeta.
    replace (firstn 16 (drawn ++ ct)) with drawn
      by (rewrite <- Hd, firstn_app, firstn_all, Nat.sub_diag; cbn [firstn]; now rewrite app_nil_r).
    replace (skipn 16 (drawn ++ ct)) with ct by (symmetry; now apply skipn_exact_app).
    replace (Z.of_nat (length (drawn ++ ct)) - 16)%Z with (Z.of_nat (length ct))
      by (rewrite length_app; lia).
    unfold Utf8_parse. rewrite Hk. cbn [or_throw bind]. fold key.
    unfold Utf8_stringify.
    pose proof (@AES_decrypt_encrypt_bytes P key drawn pb Hstd Hd) as Hbytes.
    cbv zeta in Hbytes. fold padded in Hbytes. fold ct in Hbytes. rewrite Hbytes.
    rewrite Hdec. cbn [or_throw bind].
    replace (Nat.eqb (length payload) 0) with false
      by (symmetry; apply Nat.eqb_neq; unfold payload, stringify_payload; cbn [app length]; lia).
    unfold payload. rewrite parse_payload by assumption.
    cbn [bind get_property]. change (lookup name_t _) with (JNum now).
    change (lookup name_v _) with (JStr value).
    cbn [bind truthy stale].
    destruct (negb (now =? 0)%Z && (60000 <? Z.abs (now' - now))%Z); reflexivity.
Qed.

(** The [catch] of [encryptWithDynamicIV] changes nothing. *)
Lemma encrypt_rethrows P now drawn value keyStr :
  encryptWithDynamicIV P now drawn value keyStr = encrypt_try P now drawn value keyStr.
Proof.
  unfold encryptWithDynamicIV. now destruct (encrypt_try P now drawn value keyStr).
Qed.

(** The [try] block of [encryptWithDynamicIV], step by step. *)
Lemma encrypt_try_eq P now drawn value keyStr :
  length drawn = 16%nat ->
  encrypt_try P now drawn value keyStr
  = match utf8_encode keyStr with
    | None => Throw URIError
    | Some kb =>
        match utf8_encode (stringify_payload (well_formed_stringify P) now value) with
        | None => Throw URIError
        | Some pb =>
            Normal (b64_encode
                      (drawn ++ cbc_encrypt (block_encrypt P (Latin1_parse kb))
                                            (length (Pkcs7_pad pb) / 16) drawn (Pkcs7_pad pb)))
        end
    end.
Proof.
  intros Hd. unfold encrypt_try, Utf8_parse, AES_encrypt, Utf8_parse.
  destruct (utf8_encode keyStr) as [kb|]; [|reflexivity].
  cbn [or_throw bind].
  destruct (utf8_encode (stringify_payload (well_formed_stringify P) now value)) as [pb|];
    [|reflexivity].
  cbn [or_throw bind]. rewrite sig_bytes_Latin1_parse.
  cbn [WordArray_random16 words].
  replace (take_pad 16 drawn) with drawn by (symmetry; now apply take_pad_whole).
  set (ct := cbc_encrypt _ _ _ _).
  assert (Hct : exists nb, length ct = (16 * nb)%nat).
  { eexists. unfold ct. now rewrite cbc_encrypt_length by apply block_encrypt_length. }
  destruct Hct as [nb Hct].
  unfold Base64_stringify, concat, sig_bytes, WordArray_random16. cbn [words sigBytes].
  rewrite Nat2Z.id, take_pad_exact. change (Z.to_nat 16) with 16%nat.
  replace (take_pad 16 drawn) with drawn by (symmetry; now apply take_pad_whole).
  replace (pad_words (drawn ++ ct)) with (drawn ++ ct)
    by (symmetry; apply pad_words_aligned; rewrite length_app, Hd, Hct;
        replace (16 + 16 * nb)%nat with ((4 + 4 * nb) * 4)%nat by lia;
        apply Nat.Div0.mod_mul).
  replace (Z.to_nat (16 + Z.of_nat (length ct))) with (length (drawn ++ ct))
    by (rewrite length_app; lia).
  now rewrite take_pad_exact.
Qed.

Lemma b64_encode_inj a b : b64_encode a = b64_encode b -> a = b.
Proof.
  intros H. rewrite <- (b64_decode_encode a), <- (b64_decode_encode b). now rewrite H.
Qed.

Lemma decoded_bytes_eq blob : decoded_bytes blob = b64_decode (before_padding blob).
Proof. unfold decoded_bytes, Base64_parse. apply sig_bytes_Latin1_parse. Qed.

(** The [try] block of [decryptWithDynamicIV] in terms of the text the
    blob decrypts to. *)
Lemma decrypt_try_text P now blob keyStr :
  decrypt_try P now blob keyStr
  = bind (decrypted_text P blob keyStr)
      (fun jsonStr =>
         if Nat.eqb (length jsonStr) 0 then Normal JNull
         else bind (JSON.parse jsonStr)
                (fun data =>
                   bind (get_property data name_t)
                     (fun t => if truthy P t && stale P now t then Normal JNull
                               else get_property data name_v))).
Proof.
  unfold decrypt_try, decrypted_text.
  destruct (Utf8_parse keyStr); reflexivity.
Qed.

Lemma well_formed_encode s :
  well_formed_utf16 s = true -> exists bs, utf8_encode s = Some bs.
Proof.
  unfold well_formed_utf16. destruct (utf8_encode s) as [bs|]; [|discriminate].
  intros _. now exists bs.
Qed.

End CodecFacts.

(** ** The wire format: foreign and altered blobs *)

Module WireFacts.
Import Bytes BytesFacts AES JsString Js JSON CryptoJS Cipher Codec Wire.
Import AESFacts JsStringFacts Base64Facts CipherFacts JSONFacts PayloadFacts CodecFacts.
Local Open Scope N_scope.

#[local] Ltac Zify.zify_post_hook ::= Z.to_euclidean_division_equations.

Lemma decrypted_text_blocks P iv ct keyStr kb nb :
  utf8_encode keyStr = Some kb ->
  length iv = 16%nat -> length ct = (16 * nb)%nat -> (1 <= nb)%nat ->
  decrypted_text P (b64_encode (iv ++ ct)) keyStr
  = Utf8_stringify
      {| words := cbc_decrypt (block_decrypt P (Latin1_parse kb)) nb iv ct;
         sigBytes := Z.of_nat (16 * nb)
                     - Z.of_N (Byte.to_N (nth (16 * nb - 1)
                          (cbc_decrypt (block_decrypt P (Latin1_parse kb)) nb iv ct) x00)) |}.
Proof.
  intros Hk Hiv Hct Hnb.
  assert (Hall : Latin1_parse (iv ++ ct)
                 = {| words := iv ++ ct; sigBytes := Z.of_nat (length (iv ++ ct)) |}).
  { apply Latin1_parse_aligned. exists (4 + 4 * nb)%nat. rewrite length_app. lia. }
  unfold decrypted_text, Base64_parse.
  rewrite b64_decode_encode, Hall. cbn [words sigBytes]. cbv zeta.
  replace (firstn 16 (iv ++ ct)) with iv by (symmetry; now apply firstn_exact_app).
  replace (skipn 16 (iv ++ ct)) with ct by (symmetry; now apply skipn_exact_app).
  unfold Utf8_parse. rewrite Hk. cbn [or_throw bind].
  unfold AES_decrypt. cbn [sigBytes words].
  replace (Z.of_nat (length (iv ++ ct)) - 16 <=? 0)%Z with false
    by (symmetry; apply Z.leb_gt; rewrite length_app; lia).
  replace (Z.to_nat (ceil_div (Z.of_nat (length (iv ++ ct)) - 16) 16)) with nb
    by (unfold ceil_div; rewrite length_app; lia).
  replace (4 * Z.to_nat (ceil_div (Z.of_nat (length (iv ++ ct)) - 16) 4))%nat
    with (16 * nb)%nat by (unfold ceil_div; rewrite length_app; lia).
  replace (4 * Z.to_nat ((Z.of_nat (length (iv ++ ct)) - 16 - 1) / 4) + 3)%nat
    with (16 * nb - 1)%nat by (rewrite length_app; lia).
  replace (Z.of_nat (length (iv ++ ct)) - 16)%Z with (Z.of_nat (16 * nb))
    by (rewrite length_app; lia).
  rewrite (@firstn_exact _ _ Hct), (@take_pad_whole _ _ Hct).
  replace (take_pad 16 iv) with iv by (symmetry; now apply take_pad_whole).
  reflexivity.
Qed.

Lemma standard_key_Latin1_parse kb :
  standard_length (length kb) -> standard_key (Latin1_parse kb).
Proof.
  intros Hkl. unfold standard_key, Latin1_parse. cbn [sigBytes].
  destruct Hkl as [E|[E|E]]; rewrite E; auto.
Qed.

(** Decrypting CBC blocks made from padded bytes, then unpadding. *)
Lemma unpad_processed pb nb n (processed : list byte) :
  (1 <= n <= 16)%nat -> (length pb + n = 16 * nb)%nat ->
  processed = pb ++ repeat (byte_of_N (N.of_nat n)) n ->
  sig_bytes {| words := processed;
               sigBytes := Z.of_nat (16 * nb)
                           - Z.of_N (Byte.to_N (nth (16 * nb - 1) processed x00)) |} = pb.
Proof.
  intros Hn Hlen ->. unfold sig_bytes. cbn [words sigBytes].
  replace (16 * nb - 1)%nat with (length pb + (n - 1))%nat by lia.
  rewrite app_nth2_plus, nth_repeat_lt by lia.
  rewrite to_N_byte_of_N by lia.
  replace (Z.to_nat (Z.of_nat (16 * nb) - Z.of_N (N.of_nat n))) with (length pb) by lia.
  apply take_pad_app_exact.
Qed.

Lemma decrypted_text_wire P iv keyStr kb text pb :
  utf8_encode keyStr = Some kb -> standard_length (length kb) ->
  length iv = 16%nat ->
  wf_string text -> utf8_encode text = Some pb ->
  decrypted_text P (wire_blob P iv kb pb) keyStr = Normal text.
Proof.
  intros Hk Hkl Hiv Hwf Hpb. unfold wire_blob.
  destruct (Pkcs7_pad_shape pb) as (nb & n & Hn & Hlen & Hpad & Hnb).
  rewrite Hnb.
  assert (Hpl : length (Pkcs7_pad pb) = (16 * nb)%nat).
  { rewrite Hpad, length_app, repeat_length. exact Hlen. }
  rewrite (@decrypted_text_blocks P iv _ keyStr kb nb Hk Hiv);
    [ | now rewrite cbc_encrypt_length by apply block_encrypt_length | lia ].
  rewrite (@cbc_decrypt_encrypt (block_encrypt P (Latin1_parse kb))
             (block_decrypt P (Latin1_parse kb)));
    [ | apply block_encrypt_length
      | intros; apply block_decrypt_encrypt; auto using standard_key_Latin1_parse
      | exact Hiv | exact Hpl ].
  unfold Utf8_stringify.
  rewrite (@unpad_processed pb nb n _ Hn Hlen Hpad).
  rewrite (utf8_decode_encode Hwf Hpb). reflexivity.
Qed.

Lemma bxor_assoc a b c : bxor (bxor a b) c = bxor a (bxor b c).
Proof.
  unfold bxor. rewrite !Byte.to_bits_of_bits.
  destruct (Byte.to_bits a) as (a0 & a1 & a2 & a3 & a4 & a5 & a6 & a7).
  destruct (Byte.to_bits b) as (b0 & b1 & b2 & b3 & b4 & b5 & b6 & b7).
  destruct (Byte.to_bits c) as (c0 & c1 & c2 & c3 & c4 & c5 & c6 & c7).
  cbn [bits_xor]. now rewrite !xorb_assoc.
Qed.

Lemma xor_bytes_assoc a : forall b d,
  length a = length b ->
  xor_bytes a (xor_bytes b d) = xor_bytes (xor_bytes a b) d.
Proof.
  induction a as [|x a IH]; intros [|y b] d H; try discriminate; [reflexivity|].
  destruct d as [|z d]; [reflexivity|].
  cbn [xor_bytes]. rewrite bxor_assoc, IH; auto.
Qed.

Lemma xor_bytes_app_short a : forall d r,
  (length d <= length a)%nat -> xor_bytes (a ++ r) d = xor_bytes a d ++ r.
Proof.
  induction a as [|x a IH]; intros [|z d] r H; cbn [length] in H; try lia.
  - destruct r; reflexivity.
  - reflexivity.
  - cbn [app xor_bytes]. rewrite IH by lia. reflexivity.
Qed.

Lemma xor_bytes_nil_r a : xor_bytes a [] = a.
Proof. destruct a; reflexivity. Qed.

(** X-oring a mask into the IV x-ors it into the first decrypted block. *)
Lemma cbc_decrypt_xor_iv D n iv mask data :
  (forall c, length (D c) = 16%nat) ->
  length iv = 16%nat -> (length mask <= 16)%nat ->
  cbc_decrypt D (S n) (xor_bytes iv mask) data
  = xor_bytes (cbc_decrypt D (S n) iv data) mask.
Proof.
  intros HD Hiv Hm. cbn [cbc_decrypt].
  rewrite xor_bytes_app_short by (rewrite xor_bytes_length, HD; exact Hm).
  rewrite xor_bytes_assoc by (rewrite HD; now symmetry). reflexivity.
Qed.

Lemma inv_mix_columns_length s : length s = 16%nat -> length (inv_mix_columns s) = 16%nat.
Proof. intros H. list16 s H. reflexivity. Qed.

Lemma inv_shift_rows_length s : length (inv_shift_rows s) = length s.
Proof.
  do 16 (destruct s as [|? s]; [reflexivity|]).
  destruct s; reflexivity.
Qed.

Lemma inv_rounds_length rks : forall s, length s = 16%nat -> length (inv_rounds rks s) = 16%nat.
Proof.
  induction rks as [|rk rks IH]; intros s Hs; [exact Hs|].
  destruct rks as [|rk' rks'].
  - cbn [inv_rounds]. unfold inv_final_round, inv_sub_bytes.
    now rewrite length_map, inv_shift_rows_length, add_round_key_length.
  - change (length (inv_round rk (inv_rounds (rk' :: rks') s)) = 16%nat).
    unfold inv_round, inv_sub_bytes.
    rewrite length_map, inv_shift_rows_length. apply inv_mix_columns_length.
    rewrite add_round_key_length. now apply IH.
Qed.

Lemma decrypt_block_length Nk key block : length (decrypt_block Nk key block) = 16%nat.
Proof.
  unfold decrypt_block, inv_cipher.
  destruct (round_keys Nk key) as [|rk0 rks]; [apply take_pad_length|].
  rewrite add_round_key_length. apply inv_rounds_length, take_pad_length.
Qed.

Lemma block_decrypt_length P key block : length (block_decrypt P key block) = 16%nat.
Proof.
  unfold block_decrypt.
  repeat match goal with |- context [if ?b then _ else _] => destruct b end;
    auto using decrypt_block_length, take_pad_length.
Qed.


Lemma parse_members_renamed f s :
  parse_members (S f) (34 :: 117 :: 34 :: 58 :: s)
  = match parse_value f s with
    | Some (v, r3) =>
        match skip_ws r3 with
        | c :: r4 =>
            if c =? 44 then
              match parse_members f r4 with
              | Some (ms, rest) => Some (([117], v) :: ms, rest)
              | None => None
              end
            else if c =? 125 then Some ([([117], v)], r4)
            else None
        | [] => None
        end
    | None => None
    end.
Proof. reflexivity. Qed.

(** The payload text with its first member renamed from [t] to [u]. *)
Lemma parse_renamed_payload wf t v :
  (Z.abs t <= max_safe)%Z -> wf_string v ->
  JSON.parse ([123; 34; 117; 34; 58] ++ number_to_string t
              ++ [44; 34; 118; 34; 58] ++ quote wf v ++ [125])
  = Normal (JObj [([117], JNum t); ([118], JStr v)]).
Proof.
  intros Ht Hv. unfold JSON.parse.
  set (text := [123; 34; 117; 34; 58] ++ _).
  assert (E : exists f, (2 * length text + 2 = S (S (S (S f))))%nat).
  { exists (2 * length text - 2)%nat. unfold text. cbn [app length]. lia. }
  destruct E as [f E]. rewrite E. unfold text, quote.
  cbn [app]. rewrite parse_value_object, parse_members_renamed.
  destruct (number_to_string_head t) as (c & more & En & Hc).
  pose proof (@parse_number_integer t
                (34 :: 118 :: 34 :: 58 :: 34 :: (quote_body wf v ++ [34]) ++ [125]) Ht) as Hn.
  rewrite En in *. cbn [app] in *.
  rewrite (@parse_value_number _ _ _ Hc), Hn.
  cbn [skip_ws is_ws N.eqb Pos.eqb orb]. cbn iota.
  rewrite parse_members_member by now right.
  rewrite parse_value_string, <- app_assoc. cbn [app].
  rewrite parse_string_body_quote by exact Hv.
  reflexivity.
Qed.

Lemma utf8_encode_ascii_cons c s :
  c < 128 ->
  utf8_encode (c :: s) = option_map (cons (byte_of_N c)) (utf8_encode s).
Proof.
  intros H. cbn [utf8_encode]. unfold is_low_surrogate, is_high_surrogate, utf8_of_code_point.
  decide_cmp. destruct (utf8_encode s); reflexivity.
Qed.

Lemma time_value_bound now : time_value now -> (Z.abs now <= max_safe)%Z.
Proof. unfold time_value, max_safe. lia. Qed.

Lemma bxor_low_bit_neq c : bxor c x01 <> c.
Proof. destruct c; discriminate. Qed.

Lemma high_then_not_low c s :
  is_high_surrogate c = true -> not_low_head s -> well_formed_utf16 (c :: s) = false.
Proof.
  intros Hh Hs. unfold well_formed_utf16. cbn [utf8_encode].
  destruct (is_low_surrogate c); [reflexivity|]. rewrite Hh.
  destruct s as [|c2 s]; [reflexivity|]. cbn in Hs. now rewrite Hs.
Qed.

Lemma low_first c s : is_low_surrogate c = true -> well_formed_utf16 (c :: s) = false.
Proof. intros H. unfold well_formed_utf16. cbn [utf8_encode]. now rewrite H. Qed.

Lemma quote_unit_head c :
  is_low_surrogate c = false ->
  exists h r, quote_unit c = h :: r /\ is_low_surrogate h = false.
Proof.
  intros H. unfold quote_unit.
  destruct (c =? 34); [exists 92, [34]; split; reflexivity|].
  destruct (c =? 92); [exists 92, [92]; split; reflexivity|].
  destruct (c =? 8); [exists 92, [98]; split; reflexivity|].
  destruct (c =? 12); [exists 92, [102]; split; reflexivity|].
  destruct (c =? 10); [exists 92, [110]; split; reflexivity|].
  destruct (c =? 13); [exists 92, [114]; split; reflexivity|].
  destruct (c =? 9); [exists 92, [116]; split; reflexivity|].
  destruct (c <? 32).
  - unfold unicode_escape. eexists; eexists. split; reflexivity.
  - exists c, []. split; [reflexivity | exact H].
Qed.

Lemma quote_body_head c v tail :
  is_low_surrogate c = false -> not_low_head (quote_body false (c :: v) ++ tail).
Proof.
  intros H. cbn [quote_body]. rewrite H.
  destruct (is_high_surrogate c).
  - destruct v as [|c2 v]; [exact H|].
    destruct (is_low_surrogate c2); exact H.
  - destruct (@quote_unit_head c H) as (h & r & E & Hh). rewrite E. exact Hh.
Qed.

Lemma quote_unit_plain c :
  c < 65536 -> plain c -> Forall plain (quote_unit c).
Proof.
  intros Hc [Hh Hl].
  destruct (@not_surrogate_below c Hc Hh Hl) as [Hlow|Hhigh].
  - now apply Forall_plain_below, quote_unit_bound.
  - unfold quote_unit. decide_cmp. constructor; [split; assumption | constructor].
Qed.

Lemma well_formed_quote_body_inv_aux tail n : forall v,
  (length v <= n)%nat -> wf_string v -> not_low_head tail ->
  well_formed_utf16 (quote_body false v ++ tail) = true ->
  well_formed_utf16 v = true.
Proof.
  induction n as [|n IH]; intros v Hn Hwf Ht Hq.
  - destruct v; [reflexivity | cbn in Hn; lia].
  - destruct v as [|c v]; [reflexivity|].
    inversion Hwf as [|? ? Hc Hwf']; subst.
    cbn [quote_body] in Hq.
    destruct (is_high_surrogate c) eqn:Eh.
    + destruct v as [|c2 v].
      * cbn [quote_lone app] in Hq. rewrite high_then_not_low in Hq by assumption.
        discriminate.
      * inversion Hwf' as [|? ? Hc2 Hwf'']; subst.
        destruct (is_low_surrogate c2) eqn:El.
        -- cbn [app] in Hq. rewrite well_formed_pair in Hq by assumption.
           rewrite well_formed_pair by assumption.
           apply IH; auto. cbn [length] in Hn. lia.
        -- cbn [quote_lone] in Hq. rewrite <- app_assoc in Hq. cbn [app] in Hq.
           rewrite high_then_not_low in Hq; [discriminate | exact Eh |].
           now apply quote_body_head.
    + destruct (is_low_surrogate c) eqn:El.
      * cbn [quote_lone] in Hq. rewrite <- app_assoc in Hq. cbn [app] in Hq.
        rewrite low_first in Hq by exact El. discriminate.
      * rewrite <- app_assoc in Hq.
        rewrite well_formed_app_plain in Hq by (apply quote_unit_plain; [exact Hc | now split]).
        rewrite well_formed_plain by (now split).
        apply IH; auto. cbn [length] in Hn. lia.
Qed.

(** Without escaping, the payload text is well-formed only if the value is. *)
Lemma payload_well_formed_inv t v :
  wf_string v ->
  well_formed_utf16 (stringify_payload false t v) = true -> well_formed_utf16 v = true.
Proof.
  intros Hv. unfold stringify_payload, quote.
  rewrite well_formed_app_plain
    by (apply ascii_plain; repeat (apply Forall_cons; [lia|]); apply Forall_nil).
  rewrite well_formed_app_plain by apply ascii_plain, number_to_string_ascii.
  rewrite well_formed_app_plain
    by (apply ascii_plain; repeat (apply Forall_cons; [lia|]); apply Forall_nil).
  cbn [app]. rewrite well_formed_plain by (apply plain_below; lia).
  rewrite <- app_assoc. intros H.
  apply well_formed_quote_body_inv_aux with (tail := ([34] ++ [125])%list) (n := length v);
    auto. reflexivity.
Qed.

Lemma b64_char_is_b64 n : n < 64 -> is_b64_char (b64_char n) = true.
Proof.
  intros H.
  destruct (b64_char_cases H) as [[? E]|[[? E]|[[? E]|[[? E]|[? E]]]]];
    rewrite E; unfold is_b64_char; decide_cmp; reflexivity.
Qed.

Lemma b64_encode_chars_aux n : forall bs,
  (length bs <= n)%nat -> Forall (fun c => is_b64_char c = true) (b64_encode bs).
Proof.
  induction n as [|n IH]; intros bs Hn.
  - destruct bs; [constructor | cbn in Hn; lia].
  - destruct bs as [|a [|b [|c rest]]]; [constructor| | |];
      pose proof (Byte.to_N_bounded a); try pose proof (Byte.to_N_bounded b);
      try pose proof (Byte.to_N_bounded c); cbn [b64_encode];
      repeat (apply Forall_cons; [first [reflexivity | apply b64_char_is_b64; lia]|]);
      first [apply Forall_nil | apply IH; cbn [length] in Hn; lia].
Qed.

Lemma b64_encode_length_aux n : forall bs,
  (length bs <= n)%nat -> length (b64_encode bs) = b64_length (length bs).
Proof.
  unfold b64_length.
  induction n as [|n IH]; intros bs Hn.
  - destruct bs; [reflexivity | cbn in Hn; lia].
  - destruct bs as [|a [|b [|c rest]]]; [reflexivity | reflexivity | reflexivity |].
    cbn [b64_encode length]. rewrite IH by (cbn [length] in Hn; lia).
    replace (S (S (S (length rest))) + 2)%nat with (length rest + 2 + 1 * 3)%nat by lia.
    rewrite Nat.div_add by lia. lia.
Qed.

Lemma before_padding_app_pad s junk :
  before_padding (before_padding s ++ 61 :: junk) = before_padding s.
Proof.
  induction s as [|c s IH]; [reflexivity|].
  cbn [before_padding]. destruct (c =? 61) eqn:E; [reflexivity|].
  cbn [app before_padding]. rewrite E. f_equal. exact IH.
Qed.

Lemma before_padding_idem s : before_padding (before_padding s) = before_padding s.
Proof.
  induction s as [|c s IH]; [reflexivity|].
  cbn [before_padding]. destruct (c =? 61) eqn:E; [reflexivity|].
  cbn [before_padding]. rewrite E. f_equal. exact IH.
Qed.

Lemma as_read_pad c : (as_read c =? 61) = (c =? 61).
Proof.
  unfold as_read. destruct (is_b64_char c) eqn:E; [reflexivity|].
  unfold is_b64_char in E. destruct (c =? 61); [|reflexivity].
  now rewrite !orb_true_r in E.
Qed.

Lemma b64_value_as_read c : b64_value (as_read c) = b64_value c.
Proof.
  unfold as_read. destruct (is_b64_char c) eqn:E; [reflexivity|].
  unfold is_b64_char in E. unfold b64_value.
  repeat (apply orb_false_iff in E; destruct E as [E ?]).
  repeat match goal with H : _ = false |- _ => rewrite H; clear H end.
  reflexivity.
Qed.

Lemma before_padding_as_read s :
  before_padding (map as_read s) = map as_read (before_padding s).
Proof.
  induction s as [|c s IH]; [reflexivity|].
  cbn [map before_padding]. rewrite as_read_pad.
  destruct (c =? 61); [reflexivity|]. cbn [map]. now rewrite IH.
Qed.

Lemma b64_decode_as_read_aux n : forall s,
  (length s <= n)%nat -> b64_decode (map as_read s) = b64_decode s.
Proof.
  induction n as [|n IH]; intros s Hn.
  - destruct s; [reflexivity | cbn in Hn; lia].
  - destruct s as [|c0 [|c1 [|c2 [|c3 rest]]]]; cbn [map b64_decode];
      rewrite ?b64_value_as_read; try reflexivity.
    rewrite IH by (cbn [length] in Hn; lia). reflexivity.
Qed.

(** A blob was returned: the value suits the engine's [JSON.stringify]. *)
Lemma encrypt_success_inv P now drawn value keyStr blob :
  wf_string value ->
  encryptWithDynamicIV P now drawn value keyStr = Normal blob ->
  well_formed_stringify P = true \/ well_formed_utf16 value = true.
Proof.
  intros Hv. rewrite encrypt_rethrows.
  unfold encrypt_try, Utf8_parse, AES_encrypt, Utf8_parse.
  destruct (utf8_encode keyStr) as [kb|]; cbn [or_throw bind]; [|discriminate].
  destruct (utf8_encode (stringify_payload (well_formed_stringify P) now value))
    as [pb|] eqn:Hpb; cbn [or_throw bind]; [|discriminate].
  intros _. destruct (well_formed_stringify P) eqn:Ew; [now left | right].
  apply (@payload_well_formed_inv now value Hv).
  unfold well_formed_utf16. now rewrite Hpb.
Qed.

(** Decide the integer comparisons of a hypothesis by linear arithmetic. *)
Ltac decide_in H :=
  repeat match type of H with
  | context [(?a =? ?b)%Z] =>
      first [ replace (a =? b)%Z with true in H by (symmetry; apply Z.eqb_eq; lia)
            | replace (a =? b)%Z with false in H by (symmetry; apply Z.eqb_neq; lia) ]
  | context [(?a <? ?b)%Z] =>
      first [ replace (a <? b)%Z with true in H by (symmetry; apply Z.ltb_lt; lia)
            | replace (a <? b)%Z with false in H by (symmetry; apply Z.ltb_ge; lia) ]
  end; cbn [negb andb] in H.

End WireFacts.

(* ================================================================== *)
(** * The specification of the codec, claim by claim *)

Module Claims.
Import Stdlib.Strings.String.
Import Stdlib.Lists.List.
Import ListNotations.
Import Bytes BytesFacts JsString Js JSON CryptoJS Cipher Codec.
Import AESFacts JsStringFacts Base64Facts CipherFacts JSONFacts PayloadFacts CodecFacts.

#[local] Ltac Zify.zify_post_hook ::= Z.to_euclidean_division_equations.

(** Evaluate a closed side condition. *)
Ltac by_evaluation :=
  lazymatch goal with
  | |- wf_string _ => apply wf_stringb_sound; vm_compute; reflexivity
  | _ => vm_compute; repeat constructor; try discriminate
  end.

Lemma time_value_safe now : time_value now -> (Z.abs now <= max_safe)%Z.
Proof. unfold time_value, max_safe. lia. Qed.

(** C1. Round trip: for every string [value] and every key whose UTF-8
    encoding has 16 bytes, the blob [encryptWithDynamicIV] makes at time
    [now] is turned back into [value] by [decryptWithDynamicIV] under the
    same key at every time [now'] within 60,000 ms of [now].  (On an
    engine whose [JSON.stringify] is not well-formed the value must have
    no unpaired surrogate.) *)
Theorem C1_roundtrip_within_window P now now' drawn value keyStr kb :
  wf_string value ->
  well_formed_stringify P = true \/ well_formed_utf16 value = true ->
  utf8_encode keyStr = Some kb -> length kb = 16%nat ->
  length drawn = 16%nat ->
  time_value now ->
  (Z.abs (now' - now) <= 60000)%Z ->
  exists blob,
    encryptWithDynamicIV P now drawn value keyStr = Normal blob /\
    decryptWithDynamicIV P now' blob keyStr = Normal (JStr value).
Proof.
  intros Hv Hw Hk Hkl Hd Hnow Hwin.
  destruct (@decrypt_encrypt P now drawn value keyStr kb Hv Hw Hk
              (or_introl Hkl) Hd (time_value_safe Hnow)) as (blob & He & Hdec).
  exists blob. split; [exact He|].
  rewrite Hdec.
  replace (60000 <? Z.abs (now' - now))%Z with false by (symmetry; apply Z.ltb_ge; lia).
  now rewrite andb_false_r.
Qed.

Lemma C1_roundtrip_witness :
  exists blob,
    encryptWithDynamicIV sample_platform 1700000000000 sample_iv
      (ascii "s3cr3t") (ascii "0123456789abcdef") = Normal blob /\
    decryptWithDynamicIV sample_platform 1700000059999 blob
      (ascii "0123456789abcdef") = Normal (JStr (ascii "s3cr3t")).
Proof.
  apply (@C1_roundtrip_within_window sample_platform 1700000000000 1700000059999
           sample_iv (ascii "s3cr3t") (ascii "0123456789abcdef")
           (map byte_of_N (ascii "0123456789abcdef")));
    by_evaluation.
Defined.

(** C4 (as the code has it). Expiry: for a blob made at a time [now]
    other than 0 and decrypted with the same key, a clock more than
    60,000 ms away from [now] gives [null], and a clock at most 60,000 ms
    away (60,000 included) gives the value. *)
Theorem C4_expiry_nonzero_timestamp P now drawn value keyStr kb :
  wf_string value ->
  well_formed_stringify P = true \/ well_formed_utf16 value = true ->
  utf8_encode keyStr = Some kb -> length kb = 16%nat ->
  length drawn = 16%nat ->
  time_value now -> now <> 0%Z ->
  exists blob,
    encryptWithDynamicIV P now drawn value keyStr = Normal blob /\
    (forall now', (60000 < Z.abs (now' - now))%Z ->
                  decryptWithDynamicIV P now' blob keyStr = Normal JNull) /\
    (forall now', (Z.abs (now' - now) <= 60000)%Z ->
                  decryptWithDynamicIV P now' blob keyStr = Normal (JStr value)).
Proof.
  intros Hv Hw Hk Hkl Hd Hnow Hnz.
  destruct (@decrypt_encrypt P now drawn value keyStr kb Hv Hw Hk
              (or_introl Hkl) Hd (time_value_safe Hnow)) as (blob & He & Hdec).
  exists blob. split; [exact He|].
  replace (now =? 0)%Z with false in Hdec by (symmetry; now apply Z.eqb_neq).
  cbn [negb andb] in Hdec.
  split; intros now' Hn; rewrite Hdec.
  - now replace (60000 <? Z.abs (now' - now))%Z with true by (symmetry; apply Z.ltb_lt; lia).
  - now replace (60000 <? Z.abs (now' - now))%Z with false by (symmetry; apply Z.ltb_ge; lia).
Qed.

Lemma C4_expiry_witness :
  exists blob,
    encryptWithDynamicIV sample_platform 1700000000000 sample_iv
      (ascii "s3cr3t") (ascii "0123456789abcdef") = Normal blob /\
    (forall now', (60000 < Z.abs (now' - 1700000000000))%Z ->
                  decryptWithDynamicIV sample_platform now' blob
                    (ascii "0123456789abcdef") = Normal JNull) /\
    (forall now', (Z.abs (now' - 1700000000000) <= 60000)%Z ->
                  decryptWithDynamicIV sample_platform now' blob
                    (ascii "0123456789abcdef") = Normal (JStr (ascii "s3cr3t"))).
Proof.
  apply (@C4_expiry_nonzero_timestamp sample_platform 1700000000000
           sample_iv (ascii "s3cr3t") (ascii "0123456789abcdef")
           (map byte_of_N (ascii "0123456789abcdef")));
    by_evaluation.
Defined.

(** C4, the claim as stated, fails for a blob whose timestamp is 0: made
    at clock 0 and decrypted 100,000 ms later it still gives the value. *)
Lemma C4_counterexample_timestamp_zero :
  encryptWithDynamicIV sample_platform 0 sample_iv (ascii "s3cr3t")
    (ascii "0123456789abcdef")
  = Normal (ascii "ZGVmZ2hpamtsbW5vcHFycwyOV5+M60dKt4s2r14W/Zxc2cEWVKvXqwJG8SimKl+I")
  /\ (60000 < Z.abs (100000 - 0))%Z
  /\ decryptWithDynamicIV sample_platform 100000
       (ascii "ZGVmZ2hpamtsbW5vcHFycwyOV5+M60dKt4s2r14W/Zxc2cEWVKvXqwJG8SimKl+I")
       (ascii "0123456789abcdef")
     = Normal (JStr (ascii "s3cr3t"))
  /\ Normal (JStr (ascii "s3cr3t")) <> Normal JNull.
Proof.
  split; [vm_compute; reflexivity|]. split; [reflexivity|].
  split; [vm_compute; reflexivity | discriminate].
Qed.

(** C5. The freshness check is symmetric in time and set at 60,000 ms:
    decrypting a blob made at [now] gives the same result at [now + d] and
    at [now - d] for every [d]; for [|d| <= 60000] that result is the
    value, whether the blob's timestamp lies in the decoder's past or in
    its future; and for [|d| > 60000] it is [null] on both sides, for
    every timestamp the check looks at (any but 0). *)
Theorem C5_freshness_symmetric P now drawn value keyStr kb :
  wf_string value ->
  well_formed_stringify P = true \/ well_formed_utf16 value = true ->
  utf8_encode keyStr = Some kb -> length kb = 16%nat ->
  length drawn = 16%nat ->
  time_value now ->
  exists blob,
    encryptWithDynamicIV P now drawn value keyStr = Normal blob /\
    (forall d, decryptWithDynamicIV P (now + d) blob keyStr
               = decryptWithDynamicIV P (now - d) blob keyStr) /\
    (forall d, (Z.abs d <= 60000)%Z ->
       decryptWithDynamicIV P (now + d) blob keyStr = Normal (JStr value) /\
       decryptWithDynamicIV P (now - d) blob keyStr = Normal (JStr value)) /\
    (now <> 0%Z -> forall d, (60000 < Z.abs d)%Z ->
       decryptWithDynamicIV P (now + d) blob keyStr = Normal JNull /\
       decryptWithDynamicIV P (now - d) blob keyStr = Normal JNull).
Proof.
  intros Hv Hw Hk Hkl Hd Hnow.
  destruct (@decrypt_encrypt P now drawn value keyStr kb Hv Hw Hk
              (or_introl Hkl) Hd (time_value_safe Hnow)) as (blob & He & Hdec).
  exists blob. split; [exact He|].
  assert (Hplus : forall d, Z.abs (now + d - now) = Z.abs d) by (intros; f_equal; lia).
  assert (Hminus : forall d, Z.abs (now - d - now) = Z.abs d) by (intros; lia).
  split; [|split].
  - intros d. now rewrite !Hdec, Hplus, Hminus.
  - intros d Hwin. rewrite !Hdec, Hplus, Hminus.
    replace (60000 <? Z.abs d)%Z with false by (symmetry; apply Z.ltb_ge; lia).
    now rewrite andb_false_r.
  - intros Hnz d Hout. rewrite !Hdec, Hplus, Hminus.
    replace (now =? 0)%Z with false by (symmetry; now apply Z.eqb_neq).
    replace (60000 <? Z.abs d)%Z with true by (symmetry; apply Z.ltb_lt; lia).
    now split.
Qed.

Lemma C5_freshness_witness :
  exists blob,
    encryptWithDynamicIV sample_platform 1700000000000 sample_iv
      (ascii "s3cr3t") (ascii "0123456789abcdef") = Normal blob /\
    (forall d, decryptWithDynamicIV sample_platform (1700000000000 + d) blob
                 (ascii "0123456789abcdef")
               = decryptWithDynamicIV sample_platform (1700000000000 - d) blob
                   (ascii "0123456789abcdef")) /\
    (forall d, (Z.abs d <= 60000)%Z ->
       decryptWithDynamicIV sample_platform (1700000000000 + d) blob
         (ascii "0123456789abcdef") = Normal (JStr (ascii "s3cr3t")) /\
       decryptWithDynamicIV sample_platform (1700000000000 - d) blob
         (ascii "0123456789abcdef") = Normal (JStr (ascii "s3cr3t"))) /\
    (1700000000000%Z <> 0%Z -> forall d, (60000 < Z.abs d)%Z ->
       decryptWithDynamicIV sample_platform (1700000000000 + d) blob
         (ascii "0123456789abcdef") = Normal JNull /\
       decryptWithDynamicIV sample_platform (1700000000000 - d) blob
         (ascii "0123456789abcdef") = Normal JNull).
Proof.
  apply (@C5_freshness_symmetric sample_platform 1700000000000
           sample_iv (ascii "s3cr3t") (ascii "0123456789abcdef")
           (map byte_of_N (ascii "0123456789abcdef")));
    by_evaluation.
Defined.

(** C6. Blob structure: every blob [encryptWithDynamicIV] returns is the
    Base64 text of the 16 drawn IV bytes followed by the CBC ciphertext,
    under the key's block cipher (AES-128 for a 16-byte key), of the
    PKCS#7-padded UTF-8 bytes of the JSON text of [{ t: now, v: value }];
    the ciphertext has a positive multiple of 16 bytes. *)
Theorem C6_blob_structure P now drawn value keyStr blob :
  length drawn = 16%nat ->
  encryptWithDynamicIV P now drawn value keyStr = Normal blob ->
  exists kb pb ct,
    utf8_encode keyStr = Some kb /\
    utf8_encode (stringify_payload (well_formed_stringify P) now value) = Some pb /\
    ct = cbc_encrypt (block_encrypt P (Latin1_parse kb))
                     (length (Pkcs7_pad pb) / 16) drawn (Pkcs7_pad pb) /\
    blob = b64_encode (drawn ++ ct) /\
    decoded_bytes blob = drawn ++ ct /\
    (exists k, (1 <= k)%nat /\ length ct = (16 * k)%nat) /\
    (length kb = 16%nat ->
     forall block, block_encrypt P (Latin1_parse kb) block = AES.encrypt_block 4 kb block) /\
    (time_value now -> wf_string value ->
     utf8_decode pb = Some (stringify_payload (well_formed_stringify P) now value) /\
     JSON.parse (stringify_payload (well_formed_stringify P) now value)
     = Normal (JObj [(name_t, JNum now); (name_v, JStr value)])).
Proof.
  intros Hd He. rewrite encrypt_rethrows, encrypt_try_eq in He by exact Hd.
  destruct (utf8_encode keyStr) as [kb|]; [|discriminate].
  destruct (utf8_encode (stringify_payload (well_formed_stringify P) now value))
    as [pb|] eqn:Hpb; [|discriminate].
  injection He as He. exists kb, pb. eexists. split; [reflexivity|].
  split; [reflexivity|]. split; [reflexivity|]. split; [now symmetry|].
  split; [subst blob; rewrite decoded_bytes_eq; apply b64_decode_encode|].
  split; [|split].
  - destruct (Pkcs7_pad_shape pb) as (nb & n & Hn & Hlen & _ & Hnb).
    exists nb. split; [lia|].
    rewrite cbc_encrypt_length by apply block_encrypt_length. now rewrite Hnb.
  - intros Hkl block. unfold block_encrypt, Latin1_parse. cbn [sigBytes words].
    rewrite Hkl. cbv beta iota delta [Z.of_nat Pos.of_succ_nat Pos.succ Z.eqb Pos.eqb].
    rewrite pad_words_aligned by (now rewrite Hkl). reflexivity.
  - intros Hnow Hv. split.
    + apply utf8_decode_encode; [now apply payload_wf_string | exact Hpb].
    + apply parse_payload; [now apply time_value_safe | exact Hv].
Qed.

Lemma C6_blob_structure_witness :
  exists kb pb ct,
    utf8_encode (ascii "0123456789abcdef") = Some kb /\
    utf8_encode (stringify_payload (well_formed_stringify sample_platform)
                   1700000000000 (ascii "s3cr3t")) = Some pb /\
    ct = cbc_encrypt (block_encrypt sample_platform (Latin1_parse kb))
                     (length (Pkcs7_pad pb) / 16) sample_iv (Pkcs7_pad pb) /\
    ascii "ZGVmZ2hpamtsbW5vcHFyczA6cYjS7W3zgpguuPFImianJV1+8EaiO/lzoq1QIDWKsSjMsyW7Nizm3MznXgUlCA=="
    = b64_encode (sample_iv ++ ct) /\
    decoded_bytes
      (ascii "ZGVmZ2hpamtsbW5vcHFyczA6cYjS7W3zgpguuPFImianJV1+8EaiO/lzoq1QIDWKsSjMsyW7Nizm3MznXgUlCA==")
    = sample_iv ++ ct /\
    (exists k, (1 <= k)%nat /\ length ct = (16 * k)%nat) /\
    (length kb = 16%nat ->
     forall block,
       block_encrypt sample_platform (Latin1_parse kb) block = AES.encrypt_block 4 kb block) /\
    (time_value 1700000000000 -> wf_string (ascii "s3cr3t") ->
     utf8_decode pb
     = Some (stringify_payload (well_formed_stringify sample_platform)
               1700000000000 (ascii "s3cr3t")) /\
     JSON.parse (stringify_payload (well_formed_stringify sample_platform)
                   1700000000000 (ascii "s3cr3t"))
     = Normal (JObj [(name_t, JNum 1700000000000); (name_v, JStr (ascii "s3cr3t"))])).
Proof.
  apply (@C6_blob_structure sample_platform 1700000000000 sample_iv (ascii "s3cr3t")
           (ascii "0123456789abcdef")
           (ascii "ZGVmZ2hpamtsbW5vcHFyczA6cYjS7W3zgpguuPFImianJV1+8EaiO/lzoq1QIDWKsSjMsyW7Nizm3MznXgUlCA=="));
    by_evaluation.
Defined.

(** C7. Fresh IV: two calls with the same value and key whose drawn IVs
    differ return different blobs, and both blobs decrypt to the value. *)
Theorem C7_distinct_ivs_distinct_blobs P now1 now2 now' drawn1 drawn2 value keyStr kb :
  wf_string value ->
  well_formed_stringify P = true \/ well_formed_utf16 value = true ->
  utf8_encode keyStr = Some kb -> length kb = 16%nat ->
  length drawn1 = 16%nat -> length drawn2 = 16%nat -> drawn1 <> drawn2 ->
  time_value now1 -> time_value now2 ->
  (Z.abs (now' - now1) <= 60000)%Z -> (Z.abs (now' - now2) <= 60000)%Z ->
  exists blob1 blob2,
    encryptWithDynamicIV P now1 drawn1 value keyStr = Normal blob1 /\
    encryptWithDynamicIV P now2 drawn2 value keyStr = Normal blob2 /\
    blob1 <> blob2 /\
    decryptWithDynamicIV P now' blob1 keyStr = Normal (JStr value) /\
    decryptWithDynamicIV P now' blob2 keyStr = Normal (JStr value).
Proof.
  intros Hv Hw Hk Hkl Hd1 Hd2 Hne Hn1 Hn2 Hw1 Hw2.
  destruct (@decrypt_encrypt P now1 drawn1 value keyStr kb Hv Hw Hk
              (or_introl Hkl) Hd1 (time_value_safe Hn1)) as (blob1 & He1 & Hdec1).
  destruct (@decrypt_encrypt P now2 drawn2 value keyStr kb Hv Hw Hk
              (or_introl Hkl) Hd2 (time_value_safe Hn2)) as (blob2 & He2 & Hdec2).
  exists blob1, blob2. split; [exact He1|]. split; [exact He2|]. split.
  - intros Heq. apply Hne.
    rewrite encrypt_rethrows, encrypt_try_eq, Hk in He1, He2 by assumption.
    destruct (utf8_encode (stringify_payload (well_formed_stringify P) now1 value));
      [|discriminate].
    destruct (utf8_encode (stringify_payload (well_formed_stringify P) now2 value));
      [|discriminate].
    injection He1 as He1. injection He2 as He2.
    rewrite <- He1, <- He2 in Heq. apply b64_encode_inj in Heq.
    apply (f_equal (firstn 16)) in Heq.
    now rewrite (@firstn_exact_app drawn1 _ 16 Hd1), (@firstn_exact_app drawn2 _ 16 Hd2)
      in Heq.
  - rewrite Hdec1, Hdec2.
    replace (60000 <? Z.abs (now' - now1))%Z with false by (symmetry; apply Z.ltb_ge; lia).
    replace (60000 <? Z.abs (now' - now2))%Z with false by (symmetry; apply Z.ltb_ge; lia).
    now rewrite !andb_false_r.
Qed.

Lemma C7_distinct_ivs_witness :
  exists blob1 blob2,
    encryptWithDynamicIV sample_platform 1700000000000 sample_iv
      (ascii "s3cr3t") (ascii "0123456789abcdef") = Normal blob1 /\
    encryptWithDynamicIV sample_platform 1700000000000 other_iv
      (ascii "s3cr3t") (ascii "0123456789abcdef") = Normal blob2 /\
    blob1 <> blob2 /\
    decryptWithDynamicIV sample_platform 1700000000001 blob1
      (ascii "0123456789abcdef") = Normal (JStr (ascii "s3cr3t")) /\
    decryptWithDynamicIV sample_platform 1700000000001 blob2
      (ascii "0123456789abcdef") = Normal (JStr (ascii "s3cr3t")).
Proof.
  apply (@C7_distinct_ivs_distinct_blobs sample_platform 1700000000000 1700000000000
           1700000000001 sample_iv other_iv (ascii "s3cr3t") (ascii "0123456789abcdef")
           (map byte_of_N (ascii "0123456789abcdef")));
    by_evaluation.
Defined.

(** C2 (as the code has it). [decryptWithDynamicIV] never raises an
    error, whatever the blob and the key (a key of the wrong length
    included).  It returns [null] when a step of its [try] block raises
    (the text is not UTF-8, not JSON, or is JSON [null]), when the text is
    empty, and when a truthy timestamp is stale; otherwise it returns the
    [v] property of the JSON value the blob decrypts to, which is
    [undefined] when that value is not an object with a [v]. *)
Theorem C2_decrypt_never_throws P now blob keyStr :
  (exists result, decryptWithDynamicIV P now blob keyStr = Normal result) /\
  decryptWithDynamicIV P now blob keyStr
  = match decrypted_text P blob keyStr with
    | Throw _ => Normal JNull
    | Normal text =>
        if Nat.eqb (length text) 0 then Normal JNull
        else match JSON.parse text with
             | Throw _ => Normal JNull
             | Normal JNull | Normal JUndefined => Normal JNull
             | Normal (JObj members) =>
                 if truthy P (lookup name_t members) && stale P now (lookup name_t members)
                 then Normal JNull
                 else Normal (lookup name_v members)
             | Normal _ => Normal JUndefined
             end
    end.
Proof.
  split.
  - unfold decryptWithDynamicIV.
    destruct (decrypt_try P now blob keyStr) as [v|e]; cbn [try_catch]; eauto.
  - unfold decryptWithDynamicIV. rewrite decrypt_try_text.
    destruct (decrypted_text P blob keyStr) as [text|]; [|reflexivity].
    cbn [bind]. destruct (Nat.eqb (length text) 0); [reflexivity|].
    destruct (JSON.parse text) as [data|]; [|reflexivity].
    destruct data; cbn [bind get_property truthy stale andb try_catch]; try reflexivity.
    destruct (truthy P (lookup name_t members) && stale P now (lookup name_t members));
      reflexivity.
Qed.

(** C2, the claim as stated, fails on a tampered and expired blob: with
    one bit of the IV flipped the blob of C1's example decrypts to a JSON
    text whose timestamp is filed under another name, and an hour after
    it was made it still gives the value, not [null]. *)
Lemma C2_counterexample_tampered_blob :
  encryptWithDynamicIV sample_platform 1700000000000 sample_iv (ascii "s3cr3t")
    (ascii "0123456789abcdef")
  = Normal (ascii "ZGVmZ2hpamtsbW5vcHFyczA6cYjS7W3zgpguuPFImianJV1+8EaiO/lzoq1QIDWKsSjMsyW7Nizm3MznXgUlCA==")
  /\ ascii "ZGVnZ2hpamtsbW5vcHFyczA6cYjS7W3zgpguuPFImianJV1+8EaiO/lzoq1QIDWKsSjMsyW7Nizm3MznXgUlCA=="
     <> ascii "ZGVmZ2hpamtsbW5vcHFyczA6cYjS7W3zgpguuPFImianJV1+8EaiO/lzoq1QIDWKsSjMsyW7Nizm3MznXgUlCA=="
  /\ decryptWithDynamicIV sample_platform (1700000000000 + 3600000)
       (ascii "ZGVnZ2hpamtsbW5vcHFyczA6cYjS7W3zgpguuPFImianJV1+8EaiO/lzoq1QIDWKsSjMsyW7Nizm3MznXgUlCA==")
       (ascii "0123456789abcdef")
     = Normal (JStr (ascii "s3cr3t"))
  /\ Normal (JStr (ascii "s3cr3t")) <> Normal JNull.
Proof.
  split; [vm_compute; reflexivity|]. split; [vm_compute; discriminate|].
  split; [vm_compute; reflexivity | discriminate].
Qed.

(** C3 (as the code has it). [encryptWithDynamicIV] checks no key
    length: for every key string without an unpaired surrogate, of any
    length, it returns a blob. *)
Theorem C3_no_key_length_check P now drawn value keyStr :
  length drawn = 16%nat ->
  wf_string value ->
  well_formed_stringify P = true \/ well_formed_utf16 value = true ->
  well_formed_utf16 keyStr = true ->
  exists blob, encryptWithDynamicIV P now drawn value keyStr = Normal blob.
Proof.
  intros Hd Hv Hw Hk.
  rewrite encrypt_rethrows, encrypt_try_eq by exact Hd.
  destruct (well_formed_encode _ Hk) as [kb Hkb]. rewrite Hkb.
  destruct (well_formed_encode _ (@payload_well_formed _ now _ Hv Hw)) as [pb Hpb].
  rewrite Hpb. eexists. reflexivity.
Qed.

Lemma C3_no_key_length_check_witness :
  exists blob,
    encryptWithDynamicIV sample_platform 1700000000000 sample_iv (ascii "s3cr3t")
      (ascii "0123456789abcdef0123456789abcdef") = Normal blob.
Proof.
  apply (@C3_no_key_length_check sample_platform 1700000000000 sample_iv
           (ascii "s3cr3t") (ascii "0123456789abcdef0123456789abcdef"));
    by_evaluation.
Defined.

(** C3, the claim as stated, fails for a key of 32 bytes: no error is
    raised, a blob encrypted under AES-256 comes back. *)
Lemma C3_counterexample_32_byte_key :
  option_map (@length byte) (utf8_encode (ascii "0123456789abcdef0123456789abcdef"))
  = Some 32%nat
  /\ encryptWithDynamicIV sample_platform 1700000000000 sample_iv (ascii "s3cr3t")
       (ascii "0123456789abcdef0123456789abcdef")
     = Normal (ascii "ZGVmZ2hpamtsbW5vcHFyc+sIsv5E7JYo3MOQJXxP+IW781PMWOPOKYmJrGc/lbCHitg4tr7bNygshLg88L0Ucw==").
Proof. split; vm_compute; reflexivity. Qed.

(** C8 (as the code has it). A blob that decodes to at most 16 bytes
    gives [null]: there is nothing after the IV to decrypt. *)
Theorem C8_at_most_16_bytes_null P now blob keyStr :
  (length (decoded_bytes blob) <= 16)%nat ->
  decryptWithDynamicIV P now blob keyStr = Normal JNull.
Proof.
  rewrite decoded_bytes_eq. intros H.
  unfold decryptWithDynamicIV, decrypt_try, Base64_parse, Utf8_parse.
  destruct (utf8_encode keyStr) as [kb|]; [|reflexivity].
  cbn [or_throw bind]. unfold AES_decrypt, Latin1_parse. cbn [sigBytes words].
  replace (Z.of_nat (length (b64_decode (before_padding blob))) - 16 <=? 0)%Z with true
    by (symmetry; apply Z.leb_le; lia).
  unfold Utf8_stringify, sig_bytes. cbn [sigBytes words].
  replace (Z.to_nat (Z.of_nat (length (b64_decode (before_padding blob))) - 16)) with 0%nat
    by lia.
  reflexivity.
Qed.

Lemma C8_at_most_16_bytes_witness :
  decryptWithDynamicIV sample_platform 1700000000000 (ascii "ZGVmZ2hpamtsbW5vcHFycw==")
    (ascii "0123456789abcdef") = Normal JNull.
Proof.
  apply (@C8_at_most_16_bytes_null sample_platform 1700000000000
           (ascii "ZGVmZ2hpamtsbW5vcHFycw==") (ascii "0123456789abcdef")).
  vm_compute. repeat constructor.
Defined.

(** C8, the claim as stated, fails on a blob of 31 bytes: its 15
    ciphertext bytes are decrypted as one zero-filled block, the low byte
    of the last word is taken for the padding length, and the 7 bytes left
    are the JSON text of an object whose [v] is 1. *)
Lemma C8_counterexample_31_bytes :
  length (decoded_bytes (ascii "ZXxMcIqc+1uLlbNmln5+9AAAAAAAAAAAAAAAAAAAAA==")) = 31%nat
  /\ decrypted_text sample_platform (ascii "ZXxMcIqc+1uLlbNmln5+9AAAAAAAAAAAAAAAAAAAAA==")
       (ascii "0123456789abcdef")
     = Normal [123; 34; 118; 34; 58; 49; 125]%N
  /\ decryptWithDynamicIV sample_platform 1700000000000
       (ascii "ZXxMcIqc+1uLlbNmln5+9AAAAAAAAAAAAAAAAAAAAA==") (ascii "0123456789abcdef")
     = Normal (JNum 1)
  /\ Normal (JNum 1) <> Normal JNull.
Proof.
  split; [vm_compute; reflexivity|]. split; [vm_compute; reflexivity|].
  split; [vm_compute; reflexivity | discriminate].
Qed.

(** C9 (as the code has it). [encryptWithDynamicIV] has no error of its
    own: its [catch] throws again what the [try] block threw, and that is
    always the [URIError] of [encodeURIComponent], raised on an unpaired
    surrogate in the key or in the JSON text of the payload. *)
Theorem C9_errors_rethrown_unchanged P now drawn value keyStr :
  encryptWithDynamicIV P now drawn value keyStr = encrypt_try P now drawn value keyStr /\
  match encryptWithDynamicIV P now drawn value keyStr with
  | Normal _ =>
      well_formed_utf16 keyStr = true /\
      well_formed_utf16 (stringify_payload (well_formed_stringify P) now value) = true
  | Throw e =>
      e = URIError /\
      (well_formed_utf16 keyStr = false \/
       well_formed_utf16 (stringify_payload (well_formed_stringify P) now value) = false)
  end.
Proof.
  split; [apply encrypt_rethrows|].
  rewrite encrypt_rethrows.
  unfold encrypt_try, Utf8_parse, AES_encrypt, Utf8_parse, well_formed_utf16.
  destruct (utf8_encode keyStr) as [kb|]; cbn [or_throw bind]; [|auto].
  destruct (utf8_encode (stringify_payload (well_formed_stringify P) now value));
    cbn [or_throw bind]; auto.
Qed.

(** C9, the claim as stated, fails on a value that is one unpaired
    surrogate: where [JSON.stringify] copies it the caller gets the raw
    [URIError]; where [JSON.stringify] escapes it no error is raised at
    all. *)
Lemma C9_counterexample_unpaired_surrogate :
  encryptWithDynamicIV legacy_platform 1700000000000 sample_iv [55296%N]
    (ascii "0123456789abcdef") = Throw URIError
  /\ encryptWithDynamicIV sample_platform 1700000000000 sample_iv [55296%N]
       (ascii "0123456789abcdef")
     = Normal (ascii "ZGVmZ2hpamtsbW5vcHFyczA6cYjS7W3zgpguuPFImiY5Z2jiV3Rs9WQV57g9EfMA3+ofN7laFIyifJ1715a8Fw==").
Proof. split; vm_compute; reflexivity. Qed.

(** C10. When the blob decrypts to the JSON text of an object whose [t]
    is absent or falsy, the freshness check is skipped: whatever the
    clock, the object's [v] is returned. *)
Theorem C10_falsy_timestamp_never_expires P now blob keyStr text members :
  decrypted_text P blob keyStr = Normal text ->
  text <> [] ->
  JSON.parse text = Normal (JObj members) ->
  truthy P (lookup name_t members) = false ->
  decryptWithDynamicIV P now blob keyStr = Normal (lookup name_v members).
Proof.
  intros Ht Hne Hp Hf.
  unfold decryptWithDynamicIV. rewrite decrypt_try_text, Ht. cbn [bind].
  destruct text as [|c text]; [congruence|]. cbn [length Nat.eqb].
  rewrite Hp. cbn [bind get_property]. rewrite Hf. reflexivity.
Qed.

Lemma C10_falsy_timestamp_witness :
  decryptWithDynamicIV sample_platform 1700000000000
    (ascii "ZGVmZ2hpamtsbW5vcHFycwyOV5+M60dKt4s2r14W/Zxc2cEWVKvXqwJG8SimKl+I")
    (ascii "0123456789abcdef")
  = Normal (lookup name_v [(name_t, JNum 0); (name_v, JStr (ascii "s3cr3t"))]).
Proof.
  apply (@C10_falsy_timestamp_never_expires sample_platform 1700000000000
           (ascii "ZGVmZ2hpamtsbW5vcHFycwyOV5+M60dKt4s2r14W/Zxc2cEWVKvXqwJG8SimKl+I")
           (ascii "0123456789abcdef")
           (stringify_payload true 0 (ascii "s3cr3t"))
           [(name_t, JNum 0); (name_v, JStr (ascii "s3cr3t"))]);
    by_evaluation.
Defined.

End Claims.

(* ================================================================== *)
(** * Further properties of the codec *)

Module Extras.
Import Stdlib.Strings.String.
Import Stdlib.Lists.List.
Import ListNotations.
Import Bytes BytesFacts AES JsString Js JSON CryptoJS Cipher Codec Wire.
Import AESFacts JsStringFacts Base64Facts CipherFacts JSONFacts PayloadFacts CodecFacts.
Import WireFacts.
Local Open Scope N_scope.

#[local] Ltac Zify.zify_post_hook ::= Z.to_euclidean_division_equations.

(** Evaluate a closed side condition. *)
Ltac evaluate :=
  lazymatch goal with
  | |- wf_string _ => apply wf_stringb_sound; vm_compute; reflexivity
  | |- _ \/ _ => vm_compute; first [left; reflexivity | right; reflexivity]
  | _ => vm_compute; repeat constructor; try discriminate
  end.

(** X1. Round trip and expiry under AES-192 and AES-256: with a key of
    24 or 32 UTF-8 bytes the blob decrypts to the value at every clock
    within 60,000 ms of its making, and to [null] at every clock further
    away when it was not made at clock 0. *)
Theorem X1_roundtrip_longer_keys P now drawn value keyStr kb :
  wf_string value ->
  well_formed_stringify P = true \/ well_formed_utf16 value = true ->
  utf8_encode keyStr = Some kb -> length kb = 24%nat \/ length kb = 32%nat ->
  length drawn = 16%nat ->
  time_value now ->
  exists blob,
    encryptWithDynamicIV P now drawn value keyStr = Normal blob /\
    (forall now', (Z.abs (now' - now) <= 60000)%Z ->
                  decryptWithDynamicIV P now' blob keyStr = Normal (JStr value)) /\
    (now <> 0%Z ->
     forall now', (60000 < Z.abs (now' - now))%Z ->
                  decryptWithDynamicIV P now' blob keyStr = Normal JNull).
Proof.
  intros Hv Hw Hk Hkl Hd Hnow.
  destruct (@decrypt_encrypt P now drawn value keyStr kb Hv Hw Hk
              (or_intror Hkl) Hd (time_value_bound Hnow)) as (blob & He & Hdec).
  exists blob. split; [exact He|]. split.
  - intros now' Hwin. rewrite Hdec.
    replace (60000 <? Z.abs (now' - now))%Z with false by (symmetry; apply Z.ltb_ge; lia).
    now rewrite andb_false_r.
  - intros Hnz now' Hfar. rewrite Hdec.
    replace (now =? 0)%Z with false by (symmetry; now apply Z.eqb_neq).
    now replace (60000 <? Z.abs (now' - now))%Z with true by (symmetry; apply Z.ltb_lt; lia).
Qed.

Lemma X1_roundtrip_longer_keys_witness :
  exists blob,
    encryptWithDynamicIV sample_platform 1700000000000 sample_iv (ascii "s3cr3t")
      (ascii "0123456789abcdef0123456789abcdef") = Normal blob /\
    (forall now', (Z.abs (now' - 1700000000000) <= 60000)%Z ->
                  decryptWithDynamicIV sample_platform now' blob
                    (ascii "0123456789abcdef0123456789abcdef")
                  = Normal (JStr (ascii "s3cr3t"))) /\
    (1700000000000%Z <> 0%Z ->
     forall now', (60000 < Z.abs (now' - 1700000000000))%Z ->
                  decryptWithDynamicIV sample_platform now' blob
                    (ascii "0123456789abcdef0123456789abcdef") = Normal JNull).
Proof.
  apply (@X1_roundtrip_longer_keys sample_platform 1700000000000 sample_iv
           (ascii "s3cr3t") (ascii "0123456789abcdef0123456789abcdef")
           (map byte_of_N (ascii "0123456789abcdef0123456789abcdef")));
    evaluate.
Defined.

(** X6. The IV is not authenticated and expiry can be undone without
    the key: flipping the lowest bit of the third IV byte of any blob
    [encryptWithDynamicIV] made renames the payload's [t] to [u], and
    [decryptWithDynamicIV] then returns the value at every clock
    reading. *)
Theorem X6_iv_bit_flip_defeats_expiry P now drawn value keyStr kb :
  wf_string value ->
  well_formed_stringify P = true \/ well_formed_utf16 value = true ->
  utf8_encode keyStr = Some kb -> standard_length (length kb) ->
  length drawn = 16%nat ->
  time_value now ->
  exists blob,
    encryptWithDynamicIV P now drawn value keyStr = Normal blob /\
    xor_into_iv third_byte_low_bit blob <> blob /\
    forall now',
      decryptWithDynamicIV P now' (xor_into_iv third_byte_low_bit blob) keyStr
      = Normal (JStr value).
Proof.
  intros Hv Hw Hk Hkl Hd Hnow.
  set (wfs := well_formed_stringify P).
  set (tail := (number_to_string now ++ [44; 34; 118; 34; 58] ++ quote wfs value ++ [125])%list).
  assert (Hpay : stringify_payload wfs now value = 123 :: 34 :: 116 :: 34 :: 58 :: tail)
    by reflexivity.
  pose proof (@payload_well_formed wfs now value Hv Hw) as Hpw.
  pose proof (@payload_wf_string wfs now value Hv) as Hpwf.
  rewrite Hpay in Hpw, Hpwf.
  unfold well_formed_utf16 in Hpw.
  rewrite !utf8_encode_ascii_cons in Hpw by lia.
  destruct (utf8_encode tail) as [pb3|] eqn:Hpb3; [clear Hpw | discriminate].
  set (pb := byte_of_N 123 :: byte_of_N 34 :: byte_of_N 116 :: byte_of_N 34 :: byte_of_N 58 :: pb3).
  set (pb' := byte_of_N 123 :: byte_of_N 34 :: byte_of_N 117 :: byte_of_N 34 :: byte_of_N 58 :: pb3).
  assert (Hpb : utf8_encode (stringify_payload wfs now value) = Some pb).
  { rewrite Hpay, !utf8_encode_ascii_cons, Hpb3 by lia. reflexivity. }
  assert (Hpb' : utf8_encode (123 :: 34 :: 117 :: 34 :: 58 :: tail) = Some pb').
  { rewrite !utf8_encode_ascii_cons, Hpb3 by lia. reflexivity. }
  assert (Hwf' : wf_string (123 :: 34 :: 117 :: 34 :: 58 :: tail)).
  { inversion Hpwf as [|? ? _ H1]; subst. inversion H1 as [|? ? _ H2]; subst.
    inversion H2 as [|? ? _ H3]; subst.
    do 3 (apply Forall_cons; [lia|]). exact H3. }
  destruct (Pkcs7_pad_shape pb) as (nb & n & Hn & Hlen & Hpad & Hnb).
  set (key := Latin1_parse kb).
  set (ct := cbc_encrypt (block_encrypt P key) (length (Pkcs7_pad pb) / 16) drawn (Pkcs7_pad pb)).
  assert (Hpl : length (Pkcs7_pad pb) = (16 * nb)%nat).
  { rewrite Hpad, length_app, repeat_length. exact Hlen. }
  assert (Hct : length ct = (16 * nb)%nat).
  { unfold ct. rewrite cbc_encrypt_length by apply block_encrypt_length. now rewrite Hnb. }
  assert (Hdec : cbc_decrypt (block_decrypt P key) nb drawn ct = Pkcs7_pad pb).
  { unfold ct. rewrite Hnb.
    apply (@cbc_decrypt_encrypt (block_encrypt P key) (block_decrypt P key));
      [ apply block_encrypt_length
      | intros; apply block_decrypt_encrypt;
        [now apply standard_key_Latin1_parse | assumption]
      | exact Hd | exact Hpl ]. }
  assert (Hblob : encryptWithDynamicIV P now drawn value keyStr
                  = Normal (b64_encode (drawn ++ ct))).
  { rewrite encrypt_rethrows, encrypt_try_eq, Hk by exact Hd. fold wfs. now rewrite Hpb. }
  exists (b64_encode (drawn ++ ct)). split; [exact Hblob|].
  assert (Hx : xor_into_iv third_byte_low_bit (b64_encode (drawn ++ ct))
               = b64_encode (xor_bytes drawn third_byte_low_bit ++ ct)).
  { unfold xor_into_iv. rewrite decoded_bytes_eq, b64_decode_encode.
    rewrite xor_bytes_app_short by (rewrite Hd; cbn; lia). reflexivity. }
  rewrite Hx. split.
  - intros Heq. apply b64_encode_inj in Heq.
    apply (f_equal (firstn 16)) in Heq.
    rewrite (@firstn_exact_app _ ct 16), (@firstn_exact_app drawn ct 16 Hd) in Heq
      by (now rewrite xor_bytes_length).
    destruct drawn as [|d0 [|d1 [|d2 drawn]]]; try discriminate.
    cbn in Heq. injection Heq as _ _ Heq _. now apply bxor_low_bit_neq in Heq.
  - intros now'.
    assert (Htext : decrypted_text P (b64_encode (xor_bytes drawn third_byte_low_bit ++ ct)) keyStr
                    = Normal (123 :: 34 :: 117 :: 34 :: 58 :: tail)).
    { rewrite (@decrypted_text_blocks P _ ct keyStr kb nb Hk);
        [ | now rewrite xor_bytes_length | exact Hct | lia ].
      fold key. destruct nb as [|nb']; [lia|].
      rewrite cbc_decrypt_xor_iv;
        [ | apply block_decrypt_length | exact Hd | cbn; lia ].
      rewrite Hdec, Hpad.
      assert (Hx' : xor_bytes (pb ++ repeat (byte_of_N (N.of_nat n)) n) third_byte_low_bit
                    = pb' ++ repeat (byte_of_N (N.of_nat n)) n).
      { unfold pb, pb', third_byte_low_bit. cbn [app xor_bytes]. reflexivity. }
      rewrite Hx'. unfold Utf8_stringify.
      rewrite (@unpad_processed pb' (S nb') n _ Hn); [ | exact Hlen | reflexivity ].
      now rewrite (utf8_decode_encode Hwf' Hpb'). }
    unfold decryptWithDynamicIV. rewrite decrypt_try_text, Htext. cbn [bind length Nat.eqb].
    change (123 :: 34 :: 117 :: 34 :: 58 :: tail)
      with ([123; 34; 117; 34; 58] ++ number_to_string now
            ++ [44; 34; 118; 34; 58] ++ quote wfs value ++ [125])%list.
    rewrite parse_renamed_payload by (auto using time_value_bound).
    reflexivity.
Qed.

Lemma X6_iv_bit_flip_witness :
  exists blob,
    encryptWithDynamicIV sample_platform 1700000000000 sample_iv (ascii "s3cr3t")
      (ascii "0123456789abcdef") = Normal blob /\
    xor_into_iv third_byte_low_bit blob <> blob /\
    forall now',
      decryptWithDynamicIV sample_platform now' (xor_into_iv third_byte_low_bit blob)
        (ascii "0123456789abcdef") = Normal (JStr (ascii "s3cr3t")).
Proof.
  apply (@X6_iv_bit_flip_defeats_expiry sample_platform 1700000000000 sample_iv
           (ascii "s3cr3t") (ascii "0123456789abcdef")
           (map byte_of_N (ascii "0123456789abcdef")));
    evaluate.
Defined.

(** X9. Blobs of other parties: for the UTF-8 bytes of any JSON object
    text, encrypted in the wire format under a key of 16, 24 or 32 bytes
    with any 16-byte IV, [decryptWithDynamicIV] returns the object's [v],
    unless the object has a truthy [t] that is stale, which gives
    [null]. *)
Theorem X9_foreign_blob_decrypts P now iv keyStr kb text pb members :
  utf8_encode keyStr = Some kb -> standard_length (length kb) ->
  length iv = 16%nat ->
  wf_string text -> utf8_encode text = Some pb ->
  JSON.parse text = Normal (JObj members) ->
  decryptWithDynamicIV P now (wire_blob P iv kb pb) keyStr
  = if truthy P (lookup name_t members) && stale P now (lookup name_t members)
    then Normal JNull
    else Normal (lookup name_v members).
Proof.
  intros Hk Hkl Hiv Hwf Hpb Hp.
  unfold decryptWithDynamicIV.
  rewrite decrypt_try_text, (@decrypted_text_wire P iv keyStr kb text pb) by assumption.
  cbn [bind]. destruct text as [|c text]; [discriminate Hp|].
  cbn [length Nat.eqb]. rewrite Hp. cbn [bind get_property].
  destruct (truthy P (lookup name_t members) && stale P now (lookup name_t members));
    reflexivity.
Qed.

Lemma X9_foreign_blob_witness :
  decryptWithDynamicIV sample_platform 1700000000000
    (wire_blob sample_platform other_iv (map byte_of_N (ascii "0123456789abcdef"))
       (map byte_of_N [123; 34; 118; 34; 58; 34; 111; 107; 34; 125]))
    (ascii "0123456789abcdef")
  = if truthy sample_platform (lookup name_t [(name_v, JStr (ascii "ok"))])
       && stale sample_platform 1700000000000 (lookup name_t [(name_v, JStr (ascii "ok"))])
    then Normal JNull
    else Normal (lookup name_v [(name_v, JStr (ascii "ok"))]).
Proof.
  apply (@X9_foreign_blob_decrypts sample_platform 1700000000000 other_iv
           (ascii "0123456789abcdef") (map byte_of_N (ascii "0123456789abcdef"))
           [123; 34; 118; 34; 58; 34; 111; 107; 34; 125]
           (map byte_of_N [123; 34; 118; 34; 58; 34; 111; 107; 34; 125])
           [(name_v, JStr (ascii "ok"))]);
    evaluate.
Defined.

(** X10. A key with an unpaired surrogate: [decryptWithDynamicIV]
    returns [null] for every blob, while [encryptWithDynamicIV] throws
    the [URIError] for every value. *)
Theorem X10_malformed_key P now drawn value blob keyStr :
  well_formed_utf16 keyStr = false ->
  decryptWithDynamicIV P now blob keyStr = Normal JNull /\
  encryptWithDynamicIV P now drawn value keyStr = Throw URIError.
Proof.
  unfold well_formed_utf16. intros H.
  destruct (utf8_encode keyStr) eqn:E; [discriminate|].
  unfold decryptWithDynamicIV, decrypt_try, encryptWithDynamicIV, encrypt_try, Utf8_parse.
  rewrite E. split; reflexivity.
Qed.

Lemma X10_malformed_key_witness :
  decryptWithDynamicIV sample_platform 1700000000000
    (ascii "ZGVmZ2hpamtsbW5vcHFyczA6cYjS7W3zgpguuPFImianJV1+8EaiO/lzoq1QIDWKsSjMsyW7Nizm3MznXgUlCA==")
    (56320 :: ascii "123456789abcdef") = Normal JNull /\
  encryptWithDynamicIV sample_platform 1700000000000 sample_iv (ascii "s3cr3t")
    (56320 :: ascii "123456789abcdef") = Throw URIError.
Proof.
  apply (@X10_malformed_key sample_platform 1700000000000 sample_iv (ascii "s3cr3t")
           (ascii "ZGVmZ2hpamtsbW5vcHFyczA6cYjS7W3zgpguuPFImianJV1+8EaiO/lzoq1QIDWKsSjMsyW7Nizm3MznXgUlCA==")
           (56320 :: ascii "123456789abcdef")).
  evaluate.
Defined.

(** X2. The text of a blob: every blob [encryptWithDynamicIV] returns
    consists of Base64 characters only, and its size depends on nothing
    but the number [n] of UTF-8 bytes of the JSON payload: it decodes to
    [32 + 16 * (n / 16)] bytes (a whole padding block is added when [n]
    is a multiple of 16) and has four characters for every three of
    them, rounded up. *)
Theorem X2_blob_text_shape P now drawn value keyStr blob :
  length drawn = 16%nat ->
  encryptWithDynamicIV P now drawn value keyStr = Normal blob ->
  exists pb,
    utf8_encode (stringify_payload (well_formed_stringify P) now value) = Some pb /\
    Forall (fun c => is_b64_char c = true) blob /\
    length (decoded_bytes blob) = (32 + 16 * (length pb / 16))%nat /\
    length blob = b64_length (32 + 16 * (length pb / 16)).
Proof.
  intros Hd He. rewrite encrypt_rethrows, encrypt_try_eq in He by exact Hd.
  destruct (utf8_encode keyStr) as [kb|]; [|discriminate].
  destruct (utf8_encode (stringify_payload (well_formed_stringify P) now value))
    as [pb|]; [|discriminate].
  injection He as He. subst blob. exists pb. split; [reflexivity|].
  set (ct := cbc_encrypt _ _ _ _).
  assert (Hlen : length (drawn ++ ct) = (32 + 16 * (length pb / 16))%nat).
  { destruct (Pkcs7_pad_shape pb) as (nb & n & Hn & Hl & _ & Hnb).
    assert (Hq : (length pb / 16 = nb - 1)%nat)
      by (symmetry; apply Nat.div_unique with (r := (16 - n)%nat); lia).
    assert (Hct : length ct = (16 * nb)%nat).
    { unfold ct. rewrite cbc_encrypt_length by apply block_encrypt_length.
      f_equal. exact Hnb. }
    rewrite length_app, Hd, Hct, Hq. lia. }
  split; [now apply b64_encode_chars_aux with (n := length (drawn ++ ct))|].
  split.
  - now rewrite decoded_bytes_eq, b64_decode_encode.
  - rewrite <- Hlen. now apply b64_encode_length_aux with (n := length (drawn ++ ct)).
Qed.

Lemma X2_blob_text_shape_witness :
  exists pb,
    utf8_encode (stringify_payload (well_formed_stringify sample_platform)
                   1700000000000 (ascii "s3cr3t")) = Some pb /\
    Forall (fun c => is_b64_char c = true)
      (ascii "ZGVmZ2hpamtsbW5vcHFyczA6cYjS7W3zgpguuPFImianJV1+8EaiO/lzoq1QIDWKsSjMsyW7Nizm3MznXgUlCA==") /\
    length (decoded_bytes
      (ascii "ZGVmZ2hpamtsbW5vcHFyczA6cYjS7W3zgpguuPFImianJV1+8EaiO/lzoq1QIDWKsSjMsyW7Nizm3MznXgUlCA=="))
    = (32 + 16 * (length pb / 16))%nat /\
    length (ascii "ZGVmZ2hpamtsbW5vcHFyczA6cYjS7W3zgpguuPFImianJV1+8EaiO/lzoq1QIDWKsSjMsyW7Nizm3MznXgUlCA==")
    = b64_length (32 + 16 * (length pb / 16)).
Proof.
  apply (@X2_blob_text_shape sample_platform 1700000000000 sample_iv (ascii "s3cr3t")
           (ascii "0123456789abcdef")
           (ascii "ZGVmZ2hpamtsbW5vcHFyczA6cYjS7W3zgpguuPFImianJV1+8EaiO/lzoq1QIDWKsSjMsyW7Nizm3MznXgUlCA=="));
    evaluate.
Defined.

(** X3. Only what precedes the first [=] of a blob is read:
    [decryptWithDynamicIV] gives the same result when the padding is
    stripped and when anything at all is appended after a [=]. *)
Theorem X3_padding_and_trailer_ignored P now blob junk keyStr :
  decryptWithDynamicIV P now (before_padding blob) keyStr
  = decryptWithDynamicIV P now blob keyStr /\
  decryptWithDynamicIV P now (before_padding blob ++ 61 :: junk) keyStr
  = decryptWithDynamicIV P now blob keyStr.
Proof.
  assert (H : forall s, before_padding s = before_padding blob ->
                        decryptWithDynamicIV P now s keyStr
                        = decryptWithDynamicIV P now blob keyStr).
  { intros s Hs. unfold decryptWithDynamicIV, decrypt_try, Base64_parse.
    now rewrite Hs. }
  split; apply H.
  - apply before_padding_idem.
  - apply before_padding_app_pad.
Qed.

(** X4. No character of a blob is rejected: one that is not Base64 text
    is read as [A], so [decryptWithDynamicIV] gives the same result on
    the blob with every such character replaced by [A]. *)
Theorem X4_foreign_characters_read_as_A P now blob keyStr :
  decryptWithDynamicIV P now (map as_read blob) keyStr
  = decryptWithDynamicIV P now blob keyStr.
Proof.
  unfold decryptWithDynamicIV, decrypt_try, Base64_parse.
  rewrite before_padding_as_read.
  now rewrite (@b64_decode_as_read_aux (length (before_padding blob)) _ (le_n _)).
Qed.

(** X7. When [encryptWithDynamicIV] fails: it throws, and then the
    [URIError], exactly when the key has an unpaired surrogate or, on an
    engine whose [JSON.stringify] does not escape them, the value has
    one; in every other case it returns a blob. *)
Theorem X7_encrypt_failure_condition P now drawn value keyStr :
  wf_string value ->
  match encryptWithDynamicIV P now drawn value keyStr with
  | Normal _ =>
      well_formed_utf16 keyStr = true /\
      (well_formed_stringify P = true \/ well_formed_utf16 value = true)
  | Throw e =>
      e = URIError /\
      (well_formed_utf16 keyStr = false \/
       (well_formed_stringify P = false /\ well_formed_utf16 value = false))
  end.
Proof.
  intros Hv. rewrite encrypt_rethrows.
  unfold encrypt_try, Utf8_parse, AES_encrypt, Utf8_parse.
  unfold well_formed_utf16 at 1 3.
  destruct (utf8_encode keyStr) as [kb|]; cbn [or_throw bind]; [|auto].
  destruct (utf8_encode (stringify_payload (well_formed_stringify P) now value))
    as [pb|] eqn:Hpb; cbn [or_throw bind].
  - split; [reflexivity|].
    destruct (well_formed_stringify P) eqn:Ew; [now left | right].
    apply (@payload_well_formed_inv now value Hv).
    unfold well_formed_utf16. now rewrite Hpb.
  - split; [reflexivity|]. right.
    assert (Hn : ~ (well_formed_stringify P = true \/ well_formed_utf16 value = true)).
    { intros Hw. pose proof (@payload_well_formed _ now _ Hv Hw) as Hp.
      unfold well_formed_utf16 in Hp at 1. rewrite Hpb in Hp. discriminate. }
    split.
    + destruct (well_formed_stringify P); [exfalso; apply Hn; now left | reflexivity].
    + destruct (well_formed_utf16 value); [exfalso; apply Hn; now right | reflexivity].
Qed.

Lemma X7_encrypt_failure_witness :
  match encryptWithDynamicIV legacy_platform 1700000000000 sample_iv
          [104; 55357; 105] (ascii "0123456789abcdef") with
  | Normal _ =>
      well_formed_utf16 (ascii "0123456789abcdef") = true /\
      (well_formed_stringify legacy_platform = true
       \/ well_formed_utf16 [104; 55357; 105] = true)
  | Throw e =>
      e = URIError /\
      (well_formed_utf16 (ascii "0123456789abcdef") = false \/
       (well_formed_stringify legacy_platform = false
        /\ well_formed_utf16 [104; 55357; 105] = false))
  end.
Proof.
  apply (@X7_encrypt_failure_condition legacy_platform 1700000000000 sample_iv
           [104; 55357; 105] (ascii "0123456789abcdef")).
  evaluate.
Defined.

(** X5. A blob determines what went into it: if two calls of
    [encryptWithDynamicIV] under the same key (of 16, 24 or 32 bytes)
    return the same blob, they had the same clock reading, drew the same
    IV and encrypted the same value. *)
Theorem X5_blob_determines_inputs P now1 now2 drawn1 drawn2 value1 value2 keyStr kb blob :
  wf_string value1 -> wf_string value2 ->
  utf8_encode keyStr = Some kb -> standard_length (length kb) ->
  length drawn1 = 16%nat -> length drawn2 = 16%nat ->
  time_value now1 -> time_value now2 ->
  encryptWithDynamicIV P now1 drawn1 value1 keyStr = Normal blob ->
  encryptWithDynamicIV P now2 drawn2 value2 keyStr = Normal blob ->
  now1 = now2 /\ drawn1 = drawn2 /\ value1 = value2.
Proof.
  intros Hv1 Hv2 Hk Hkl Hd1 Hd2 Hn1 Hn2 He1 He2.
  pose proof (encrypt_success_inv _ _ _ _ Hv1 He1) as Hw1.
  pose proof (encrypt_success_inv _ _ _ _ Hv2 He2) as Hw2.
  destruct (@decrypt_encrypt P now1 drawn1 value1 keyStr kb Hv1 Hw1 Hk
              Hkl Hd1 (time_value_bound Hn1)) as (b1 & Hb1 & Hdec1).
  destruct (@decrypt_encrypt P now2 drawn2 value2 keyStr kb Hv2 Hw2 Hk
              Hkl Hd2 (time_value_bound Hn2)) as (b2 & Hb2 & Hdec2).
  assert (b1 = blob) by congruence. assert (b2 = blob) by congruence. subst b1 b2.
  assert (G : forall now',
            (if negb (now1 =? 0)%Z && (60000 <? Z.abs (now' - now1))%Z
             then JNull else JStr value1)
            = (if negb (now2 =? 0)%Z && (60000 <? Z.abs (now' - now2))%Z
               then JNull else JStr value2)).
  { intros now'. specialize (Hdec1 now'). rewrite Hdec2 in Hdec1. now injection Hdec1. }
  assert (Hnear : (now2 = 0 \/ Z.abs (now1 - now2) <= 60000)%Z /\ value1 = value2).
  { pose proof (G now1) as G1.
    replace (60000 <? Z.abs (now1 - now1))%Z with false in G1
      by (symmetry; apply Z.ltb_ge; lia).
    rewrite andb_false_r in G1.
    destruct (Z.eqb_spec now2 0) as [Z2|N2]; cbn [negb andb] in G1.
    - split; [now left | now injection G1].
    - destruct (Z.ltb_spec 60000 (Z.abs (now1 - now2))); [discriminate|].
      split; [now right | now injection G1]. }
  destruct Hnear as [Hnear Hval].
  split; [|split; [|exact Hval]].
  - destruct (Z.eq_dec now1 now2) as [|Hne]; [assumption | exfalso].
    destruct (Z.eq_dec now1 0) as [Z1|N1].
    + pose proof (G (now2 + 60001)%Z) as G2. decide_in G2. discriminate.
    + destruct (Z.eq_dec now2 0) as [Z2|N2].
      * pose proof (G (now1 + 60001)%Z) as G2. decide_in G2. discriminate.
      * destruct Hnear as [|Hnear]; [contradiction|].
        destruct (Z.lt_ge_cases now1 now2).
        -- pose proof (G (now2 + 60000)%Z) as G2. decide_in G2. discriminate.
        -- pose proof (G (now2 - 60000)%Z) as G2. decide_in G2. discriminate.
  - rewrite encrypt_rethrows, encrypt_try_eq, Hk in He1, He2 by assumption.
    destruct (utf8_encode (stringify_payload (well_formed_stringify P) now1 value1));
      [|discriminate].
    destruct (utf8_encode (stringify_payload (well_formed_stringify P) now2 value2));
      [|discriminate].
    injection He1 as He1. injection He2 as He2.
    rewrite <- He2 in He1. apply b64_encode_inj in He1.
    apply (f_equal (firstn 16)) in He1.
    now rewrite (@firstn_exact_app drawn1 _ 16 Hd1), (@firstn_exact_app drawn2 _ 16 Hd2)
      in He1.
Qed.

Lemma X5_blob_determines_inputs_witness :
  1700000000000%Z = 1700000000000%Z /\ sample_iv = sample_iv
  /\ ascii "s3cr3t" = ascii "s3cr3t".
Proof.
  apply (@X5_blob_determines_inputs sample_platform 1700000000000 1700000000000
           sample_iv sample_iv (ascii "s3cr3t") (ascii "s3cr3t")
           (ascii "0123456789abcdef") (map byte_of_N (ascii "0123456789abcdef"))
           (ascii "ZGVmZ2hpamtsbW5vcHFyczA6cYjS7W3zgpguuPFImianJV1+8EaiO/lzoq1QIDWKsSjMsyW7Nizm3MznXgUlCA=="));
    evaluate.
Defined.

End Extras.
